(** * Movie catalog service: a shallow embedding of [backend/app.py]

    The service is a Flask application over one SQL table.  The embedding
    keeps the shape of the source: request arguments are the ordered
    multi-dict Flask hands to the handlers, a JSON body is the Python value
    [request.get_json] decodes, the table is a list of rows with the
    auto-increment counter of the primary key, and a handler returns the
    pair of a JSON body and a status code, or an uncaught exception.

    Text is a sequence of code points below 256 (Rocq's [string]); the
    functions on text below follow CPython on that range. *)

From Stdlib Require Import ZArith QArith String Ascii List Bool Lia.
From Stdlib Require Import Sorting.Sorted Sorting.Permutation.
From stdpp Require Import gmap strings list fin_maps pretty.

Local Set Warnings "-register-all".
Local Open Scope string_scope.
Local Open Scope Z_scope.

(** ** Python text: [str.strip], [str.lower], [int(str)] *)

Module PyStr.

(** [str.isspace] on one character: TAB..CR, FS..US, space, NEL, NBSP. *)
Definition is_space (c : ascii) : bool :=
  let n := N_of_ascii c in
  ((9 <=? n) && (n <=? 13) || (28 <=? n) && (n <=? 31) || (n =? 32)
   || (n =? 133) || (n =? 160))%N.

(** Dropping the leading, and the trailing, characters that satisfy [sp]. *)
Fixpoint lstrip_by (sp : ascii -> bool) (s : string) : string :=
  match s with
  | EmptyString => EmptyString
  | String c s' => if sp c then lstrip_by sp s' else s
  end.

Fixpoint rstrip_by (sp : ascii -> bool) (s : string) : string :=
  match s with
  | EmptyString => EmptyString
  | String c s' =>
      match rstrip_by sp s' with
      | EmptyString => if sp c then EmptyString else String c EmptyString
      | r => String c r
      end
  end.

(** [s.strip()] *)
Definition strip (s : string) : string :=
  rstrip_by is_space (lstrip_by is_space s).

(** [str.lower] on one character: A..Z and the Latin-1 capitals. *)
Definition lower_char (c : ascii) : ascii :=
  let n := N_of_ascii c in
  if ((65 <=? n) && (n <=? 90)
      || (192 <=? n) && (n <=? 222) && negb (n =? 215))%N
  then ascii_of_N (n + 32) else c.

(** [s.lower()] *)
Fixpoint lower (s : string) : string :=
  match s with
  | EmptyString => EmptyString
  | String c s' => String (lower_char c) (lower s')
  end.

(** [len(s)] *)
Definition len (s : string) : Z := Z.of_nat (String.length s).

Definition digit_of (c : ascii) : option Z :=
  let n := N_of_ascii c in
  if ((48 <=? n) && (n <=? 57))%N then Some (Z.of_N (n - 48)) else None.

(** The digits of a decimal literal: at least one digit, and single
    underscores only between two digits.  [prev] tells whether the
    character before was a digit. *)
Fixpoint parse_digits (acc : Z) (prev : bool) (s : string) : option Z :=
  match s with
  | EmptyString => if prev then Some acc else None
  | String c s' =>
      match digit_of c with
      | Some d => parse_digits (10 * acc + d) true s'
      | None =>
          if Ascii.eqb c "_" && prev then parse_digits acc false s' else None
      end
  end.

(** The white space [int()] skips around a literal: TAB..CR and space,
    and the two white-space characters past ASCII; FS..US are not skipped. *)
Definition is_int_space (c : ascii) : bool :=
  let n := N_of_ascii c in
  ((9 <=? n) && (n <=? 13) || (n =? 32) || (n =? 133) || (n =? 160))%N.

(** [int(s)] for a [str]: surrounding white space is dropped, one sign is
    allowed, then come the digits.  [None] is the [ValueError] of the
    source.  (The interpreter's optional cap on the length of a decimal
    literal is not part of the model.) *)
Definition int_of_str (s : string) : option Z :=
  match rstrip_by is_int_space (lstrip_by is_int_space s) with
  | String "-" r => option_map Z.opp (parse_digits 0 false r)
  | String "+" r => parse_digits 0 false r
  | r => parse_digits 0 false r
  end.

End PyStr.

(** ** Python values decoded from a JSON body *)

(** A Python [float]: a finite one is a rational; JSON text such as
    [Infinity] and [NaN] decodes to the other two. *)
Inductive PyFloat : Type :=
  | FFinite (q : Q)
  | FInf
  | FNan.

Inductive PyVal : Type :=
  | PNone
  | PBool (b : bool)
  | PInt (n : Z)
  | PFloat (f : PyFloat)
  | PStr (s : string)
  | PList (l : list PyVal)
  | PDict (d : gmap string PyVal).

(** Exceptions the handlers can meet. *)
Inductive PyExc : Type :=
  | ValueError (msg : string)
  | TypeError
  | AttributeError
  | KeyError
  | OverflowError.

(** A computation that returns or raises. *)
Inductive Result (A : Type) : Type :=
  | Ok (a : A)
  | Raise (e : PyExc).
Arguments Ok {A} a.
Arguments Raise {A} e.

Definition bind {A B : Type} (r : Result A) (k : A -> Result B) : Result B :=
  match r with
  | Ok a => k a
  | Raise e => Raise e
  end.

Notation "'let*' x ':=' r 'in' k" := (bind r (fun x => k))
  (at level 10, x name, r at level 100, k at level 200).

Module PyVal_ops.

(** Truth value of a decoded value, as [v or default] tests it. *)
Definition truthy (v : PyVal) : bool :=
  match v with
  | PNone => false
  | PBool b => b
  | PInt n => negb (n =? 0)
  | PFloat (FFinite q) => negb (Qeq_bool q 0)
  | PFloat _ => true
  | PStr s => negb (String.eqb s "")
  | PList l => match l with [] => false | _ => true end
  | PDict d => negb (bool_decide (d = ∅))
  end.

(** [x or d] *)
Definition or_else (x : option PyVal) (d : PyVal) : PyVal :=
  match x with
  | Some v => if truthy v then v else d
  | None => d
  end.

(** [int(v)]: a [bool] is 0 or 1, a finite [float] is cut towards zero, a
    [str] is parsed; [None], lists and dicts raise [TypeError]. *)
Definition int (v : PyVal) : Result Z :=
  match v with
  | PNone => Raise TypeError
  | PBool b => Ok (if b then 1 else 0)
  | PInt n => Ok n
  | PFloat (FFinite q) => Ok (Z.quot (Qnum q) (Zpos (Qden q)))
  | PFloat FInf => Raise OverflowError
  | PFloat FNan => Raise (ValueError "cannot convert float NaN to integer")
  | PStr s =>
      match PyStr.int_of_str s with
      | Some n => Ok n
      | None => Raise (ValueError "invalid literal for int() with base 10")
      end
  | PList _ => Raise TypeError
  | PDict _ => Raise TypeError
  end.

(** [v.strip()]: only a [str] has the method. *)
Definition strip (v : PyVal) : Result string :=
  match v with
  | PStr s => Ok (PyStr.strip s)
  | _ => Raise AttributeError
  end.

(** [str(v).strip() == ""].  Only a [str] can print as blank text: [None],
    booleans, numbers, lists and dicts print as ["None"], ["True"],
    digits, ["[...]"] and ["{...}"]. *)
Definition str_is_blank (v : PyVal) : bool :=
  match v with
  | PStr s => String.eqb (PyStr.strip s) ""
  | _ => false
  end.

End PyVal_ops.

(** ** The SQL engine and the host

    What the source leaves to the database and to the float runtime: the
    collation that orders text columns, the [ILIKE] and [=] tests of a
    [WHERE] clause on text, the groups of [GROUP BY genre], the text form
    of a timestamp and the rounding of the mean rating.  A collation is a
    total preorder.

    The driver binds an integer parameter only up to [int_max] (the 64-bit
    bound of the engine) and raises [int_overflow] beyond it; the source
    puts no upper bound on [page], so the [OFFSET] of a list request can
    pass it.  The source declares [id] a plain integer primary key and so
    leaves to the engine which id comes next once a record is deleted:
    [next_id_after_delete] gives it from the ids that remain and the id
    that was next before; an engine may keep its counter or go back to
    the highest id that is left, but never hands out an id in use. *)

Class Engine : Type := {
  collate : string -> string -> comparison;
  collate_antisym : forall a b, collate b a = CompOpp (collate a b);
  collate_trans :
    forall a b c, collate a b <> Gt -> collate b c <> Gt -> collate a c <> Gt;
  sql_ilike : string -> string -> bool;
  sql_eq : string -> string -> bool;
  group_count : list string -> list (string * Z);
  isoformat : Z -> string;
  round2 : Q -> Q;
  int_max : Z;
  int_max_nonneg : 0 <= int_max;
  int_overflow : PyExc;
  next_id_after_delete : list Z -> Z -> Z;
  next_id_after_delete_fresh :
    forall ids n,
      Forall (fun i => i < n) ids ->
      Forall (fun i => i < next_id_after_delete ids n) ids
}.

(** ** The [movies] table *)

Module Movie.

Record t : Type := mk {
  id : Z;
  title : string;
  genre : string;
  rating : Z;
  image_url : string;
  created_at : Z
}.

Definition to_dict `{Engine} (self : t) : gmap string PyVal :=
  {[ "id" := PInt (id self);
     "title" := PStr (title self);
     "genre" := PStr (genre self);
     "rating" := PInt (rating self);
     "imageUrl" := PStr (image_url self);
     "createdAt" := PStr (isoformat (created_at self) ++ "Z") ]}.

End Movie.

(** The table with the counter of its auto-increment primary key. *)
Record Db : Type := {
  rows : list Movie.t;
  next_id : Z
}.

(** [db.session.add(Movie(...))] followed by the flush: the engine assigns
    the primary key, [now] is the reading of [datetime.utcnow] that fills
    [created_at]. *)
Definition db_add (now : Z) (title genre : string) (rating : Z)
    (image_url : string) (db : Db) : Movie.t * Db :=
  let m := Movie.mk (next_id db) title genre rating image_url now in
  (m, {| rows := rows db ++ [m]; next_id := next_id db + 1 |}).

(** [Movie.query.get(movie_id)] *)
Definition query_get (movie_id : Z) (db : Db) : option Movie.t :=
  List.find (fun m => Movie.id m =? movie_id) (rows db).

(** The [UPDATE ... WHERE id = movie_id] a commit issues for a changed row. *)
Definition db_update (movie_id : Z) (m' : Movie.t) (db : Db) : Db :=
  {| rows := (fun m => if Movie.id m =? movie_id then m' else m) <$> rows db;
     next_id := next_id db |}.

(** [db.session.query(func.count(Movie.id)).scalar() or 0] *)
Definition db_count (db : Db) : Z := Z.of_nat (length (rows db)).

(** A response: the value given to [jsonify] and the status code. *)
Definition Response : Type := PyVal * Z.

Definition json_error (message : string) (status : Z)
    (details : option (gmap string string)) : Response :=
  let payload : gmap string PyVal := {[ "error" := PStr message ]} in
  let payload :=
    match details with
    | Some d => <["details" := PDict (PStr <$> d)]> payload
    | None => payload
    end in
  (PDict payload, status).

(** ** Seeding *)

Definition genres : list string :=
  ["Action"; "Comedy"; "Drama"; "Horror"; "Sci-Fi"; "Romance"; "Thriller";
   "Animation"].

(** [range(1, n + 1)] *)
Definition range1 (n : Z) : list Z := seqZ 1 n.

(** One turn of the loop of [seed_if_empty]: the columns of the [i]-th
    placeholder.  The index into [genres] is always in range. *)
Definition seed_columns (i : Z) : string * string * Z * string :=
  let g := default "" (genres !! Z.to_nat ((i - 1) mod Z.of_nat (length genres))) in
  let img := "https://via.placeholder.com/300x200.png?text=Movie+" ++ pretty i in
  ("Movie " ++ pretty i, g, ((i - 1) mod 10) + 1, img).

(** [db.session.add_all(seeded); db.session.commit()]: the rows are inserted
    in order, [clock i] being the clock reading for the [i]-th of them. *)
Definition add_all_seeded (clock : Z -> Z) (idxs : list Z) (db : Db) : Db :=
  foldl (fun db i =>
           let '(t, g, r, img) := seed_columns i in
           snd (db_add (clock i) t g r img db)) db idxs.

Definition seed_if_empty (clock : Z -> Z) (min_count : Z) (db : Db) : Db :=
  let count := db_count db in
  if count >=? min_count then db
  else add_all_seeded clock (range1 min_count) db.

(** The [before_request] hook: [db.create_all()] leaves an existing table
    alone, then the seeding runs with its default threshold. *)
Definition ensure_db_ready (clock : Z -> Z) (db : Db) : Db :=
  seed_if_empty clock 30 db.

(** ** Request arguments *)

(** [request.args]: the pairs of the query string in order; [get] returns
    the first value of a name. *)
Definition Args : Type := list (string * string).

Definition args_get (name : string) (args : Args) : option string :=
  option_map snd (List.find (fun kv => String.eqb (fst kv) name) args).

(** [x or d] on text that may be absent. *)
Definition str_or (x : option string) (d : string) : string :=
  match x with
  | Some s => if String.eqb s "" then d else s
  | None => d
  end.

Definition clamp_min (min_v : option Z) (val : Z) : Z :=
  match min_v with
  | Some lo => if val <? lo then lo else val
  | None => val
  end.

Definition clamp_max (max_v : option Z) (val : Z) : Z :=
  match max_v with
  | Some hi => if val >? hi then hi else val
  | None => val
  end.

Definition parse_int_arg (args : Args) (name : string) (default : Z)
    (min_v max_v : option Z) : Result Z :=
  match args_get name args with
  | None => Ok default
  | Some raw =>
      if String.eqb raw "" then Ok default
      else
        match PyStr.int_of_str raw with
        | None => Raise (ValueError (name ++ " must be an integer"))
        | Some val => Ok (clamp_max max_v (clamp_min min_v val))
        end
  end.

(** ** Validation *)

Definition has_key (data : gmap string PyVal) (field : string) : bool :=
  bool_decide (is_Some (data !! field)).

(** The inner [require] of [validate_movie_payload]. *)
Definition require (data : gmap string PyVal) (field : string)
    (errors : gmap string string) : gmap string string :=
  match data !! field with
  | None => <[field := "Required"]> errors
  | Some v =>
      if PyVal_ops.str_is_blank v then <[field := "Required"]> errors
      else errors
  end.

(** [(data.get(field) or "").strip()] *)
Definition get_stripped (data : gmap string PyVal) (field : string)
    : Result string :=
  PyVal_ops.strip (PyVal_ops.or_else (data !! field) (PStr "")).

Definition check_rating (data : gmap string PyVal)
    (errors : gmap string string) : gmap string string :=
  match data !! "rating" with
  | Some rating =>
      match PyVal_ops.int rating with
      | Ok rating_int =>
          if (rating_int <? 1) || (rating_int >? 10)
          then <["rating" := "Rating must be 1â€“10"]> errors
          else errors
      | Raise _ => <["rating" := "Rating must be a number"]> errors
      end
  | None => errors
  end.

(** The body of [validate_movie_payload] when [data] is a dict. *)
Definition validate_dict (data : gmap string PyVal) (partial : bool)
    : Result (gmap string string) :=
  let errors : gmap string string := ∅ in
  let errors :=
    if partial then errors
    else require data "imageUrl"
           (require data "rating"
              (require data "genre" (require data "title" errors))) in
  let* title := get_stripped data "title" in
  let* genre := get_stripped data "genre" in
  let* image_url := get_stripped data "imageUrl" in
  let errors :=
    if has_key data "title" && (PyStr.len title <? 1)
    then <["title" := "Title cannot be empty"]> errors else errors in
  let errors :=
    if has_key data "genre" && (PyStr.len genre <? 1)
    then <["genre" := "Genre cannot be empty"]> errors else errors in
  let errors :=
    if has_key data "imageUrl" && (PyStr.len image_url <? 5)
    then <["imageUrl" := "Provide a valid image URL"]> errors else errors in
  Ok (check_rating data errors).

(** [validate_movie_payload(data, partial)].  A body that is not a dict
    raises before any field is looked at: [field not in data] is a
    [TypeError] on a number or a boolean, and [data.get] is an
    [AttributeError] on text and lists. *)
Definition validate_movie_payload (data : PyVal) (partial : bool)
    : Result (gmap string string) :=
  match data with
  | PDict d => validate_dict d partial
  | PStr _ | PList _ => Raise AttributeError
  | _ => if partial then Raise AttributeError else Raise TypeError
  end.

(** ** Listing *)

Inductive SortCol : Type := ByTitle | ByGenre | ByRating | ByCreatedAt.

(** [sort_map.get(sort, Movie.created_at)] *)
Definition sort_map_get (sort : string) : SortCol :=
  if String.eqb sort "title" then ByTitle
  else if String.eqb sort "genre" then ByGenre
  else if String.eqb sort "rating" then ByRating
  else ByCreatedAt.

Section Handlers.
Context `{Engine}.

(** Comparison of two rows on a column. *)
Definition col_compare (c : SortCol) (a b : Movie.t) : comparison :=
  match c with
  | ByTitle => collate (Movie.title a) (Movie.title b)
  | ByGenre => collate (Movie.genre a) (Movie.genre b)
  | ByRating => Movie.rating a ?= Movie.rating b
  | ByCreatedAt => Movie.created_at a ?= Movie.created_at b
  end.

(** The key of [ORDER BY col, id]: the column first, the id on ties. *)
Definition key_compare (c : SortCol) (a b : Movie.t) : comparison :=
  match col_compare c a b with
  | Eq => Movie.id a ?= Movie.id b
  | o => o
  end.

(** Whether [a] may stand before [b]: ascending when [asc], else
    descending, on both components of the key. *)
Definition precedes (asc : bool) (c : SortCol) (a b : Movie.t) : bool :=
  match key_compare c a b with
  | Lt => asc
  | Eq => true
  | Gt => negb asc
  end.

Fixpoint insert_row (asc : bool) (c : SortCol) (m : Movie.t)
    (l : list Movie.t) : list Movie.t :=
  match l with
  | [] => [m]
  | x :: l' =>
      if precedes asc c m x then m :: l else x :: insert_row asc c m l'
  end.

(** [query.order_by(col.asc(), Movie.id.asc())] when [asc], else
    [query.order_by(col.desc(), Movie.id.desc())]. *)
Definition order_by (asc : bool) (c : SortCol) (l : list Movie.t)
    : list Movie.t :=
  foldr (insert_row asc c) [] l.

(** The filters of the [WHERE] clause. *)
Definition apply_filters (q genre : string) (query : list Movie.t)
    : list Movie.t :=
  let query :=
    if negb (String.eqb q "")
    then List.filter (fun m => sql_ilike (Movie.title m) ("%" ++ q ++ "%")) query
    else query in
  if negb (String.eqb genre "")
  then List.filter (fun m => sql_eq (Movie.genre m) genre) query
  else query.

(** The query of [list_movies] after the filters. *)
Definition list_matches (args : Args) (db : Db) : list Movie.t :=
  let q := PyStr.strip (str_or (args_get "q" args) "") in
  let genre := PyStr.strip (str_or (args_get "genre" args) "") in
  apply_filters q genre (rows db).

(** The column [list_movies] sorts on. *)
Definition list_sort_col (args : Args) : SortCol :=
  let sort := PyStr.strip (str_or (args_get "sort" args) "createdAt") in
  sort_map_get sort.

(** The query of [list_movies] after the filters and the ordering. *)
Definition list_query (args : Args) (db : Db) : list Movie.t :=
  let direction :=
    PyStr.lower (PyStr.strip (str_or (args_get "dir" args) "desc")) in
  let sort_col := list_sort_col args in
  let query := list_matches args db in
  if String.eqb direction "asc" then order_by true sort_col query
  else order_by false sort_col query.

(** The paging arguments of [list_movies], [page] first. *)
Definition list_paging (args : Args) : Result (Z * Z) :=
  let* page := parse_int_arg args "page" 1 (Some 1) None in
  let* page_size := parse_int_arg args "pageSize" 10 (Some 1) (Some 50) in
  Ok (page, page_size).

(** [query.count()] runs first; the query with [OFFSET] and [LIMIT] runs
    next and raises in the driver when the offset is beyond [int_max]. *)
Definition list_movies (args : Args) (db : Db) : Result Response :=
  match list_paging args with
  | Raise (ValueError e) => Ok (json_error e 400 None)
  | Raise e => Raise e
  | Ok (page, page_size) =>
      let query := list_query args db in
      let total := Z.of_nat (length query) in
      let offset := (page - 1) * page_size in
      if offset >? int_max then Raise int_overflow
      else
        let items :=
          take (Z.to_nat page_size) (drop (Z.to_nat offset) query) in
        let total_pages :=
          if negb (page_size =? 0) then (total + page_size - 1) / page_size
          else 1 in
        Ok (PDict {[ "items" := PList ((fun m => PDict (Movie.to_dict m)) <$> items);
                     "total" := PInt total;
                     "page" := PInt page;
                     "pageSize" := PInt page_size;
                     "totalPages" := PInt total_pages ]}, 200)
  end.

(** ** Single records *)

Definition get_movie (movie_id : Z) (db : Db) : Response :=
  match query_get movie_id db with
  | None => json_error "Movie not found" 404 None
  | Some m => (PDict (Movie.to_dict m), 200)
  end.

(** [data[field]] on a dict. *)
Definition getitem (data : gmap string PyVal) (field : string)
    : Result PyVal :=
  match data !! field with
  | Some v => Ok v
  | None => Raise KeyError
  end.

(** [request.get_json(silent=True) or {}]; [json] is [None] when the body
    does not decode. *)
Definition get_json_or_empty (json : option PyVal) : PyVal :=
  PyVal_ops.or_else json (PDict ∅).

Definition create_movie (now : Z) (json : option PyVal) (db : Db)
    : Result (Response * Db) :=
  let data := get_json_or_empty json in
  let* errors := validate_movie_payload data false in
  if negb (bool_decide (errors = ∅))
  then Ok (json_error "Validation failed" 400 (Some errors), db)
  else
    match data with
    | PDict d =>
        let* title := (let* v := getitem d "title" in PyVal_ops.strip v) in
        let* genre := (let* v := getitem d "genre" in PyVal_ops.strip v) in
        let* rating := (let* v := getitem d "rating" in PyVal_ops.int v) in
        let* image_url :=
          (let* v := getitem d "imageUrl" in PyVal_ops.strip v) in
        let '(m, db') := db_add now title genre rating image_url db in
        Ok ((PDict (Movie.to_dict m), 201), db')
    | _ => Raise TypeError
    end.

(** The four assignments of [update_movie], in order. *)
Definition apply_update (d : gmap string PyVal) (m : Movie.t)
    : Result Movie.t :=
  let* m :=
    (if has_key d "title"
     then let* v := getitem d "title" in
          let* s := PyVal_ops.strip v in
          Ok (Movie.mk (Movie.id m) s (Movie.genre m) (Movie.rating m)
                (Movie.image_url m) (Movie.created_at m))
     else Ok m) in
  let* m :=
    (if has_key d "genre"
     then let* v := getitem d "genre" in
          let* s := PyVal_ops.strip v in
          Ok (Movie.mk (Movie.id m) (Movie.title m) s (Movie.rating m)
                (Movie.image_url m) (Movie.created_at m))
     else Ok m) in
  let* m :=
    (if has_key d "rating"
     then let* v := getitem d "rating" in
          let* n := PyVal_ops.int v in
          Ok (Movie.mk (Movie.id m) (Movie.title m) (Movie.genre m) n
                (Movie.image_url m) (Movie.created_at m))
     else Ok m) in
  if has_key d "imageUrl"
  then let* v := getitem d "imageUrl" in
       let* s := PyVal_ops.strip v in
       Ok (Movie.mk (Movie.id m) (Movie.title m) (Movie.genre m)
             (Movie.rating m) s (Movie.created_at m))
  else Ok m.

Definition update_movie (movie_id : Z) (json : option PyVal) (db : Db)
    : Result (Response * Db) :=
  match query_get movie_id db with
  | None => Ok (json_error "Movie not found" 404 None, db)
  | Some m =>
      let data := get_json_or_empty json in
      let* errors := validate_movie_payload data true in
      if negb (bool_decide (errors = ∅))
      then Ok (json_error "Validation failed" 400 (Some errors), db)
      else
        match data with
        | PDict d =>
            let* m' := apply_update d m in
            Ok ((PDict (Movie.to_dict m'), 200), db_update movie_id m' db)
        | _ => Raise AttributeError
        end
  end.

Definition delete_movie (movie_id : Z) (db : Db) : Response * Db :=
  match query_get movie_id db with
  | None => (json_error "Movie not found" 404 None, db)
  | Some m =>
      let remaining :=
        List.filter (fun r => negb (Movie.id r =? movie_id)) (rows db) in
      ((PDict {[ "status" := PStr "deleted" ]}, 200),
       {| rows := remaining;
          next_id :=
            next_id_after_delete (Movie.id <$> remaining) (next_id db) |})
  end.

(** ** Statistics *)

(** [max(by_genre, key=lambda x: x[1])]: the first pair with the largest
    count. *)
Fixpoint max_by_count (best : string * Z) (l : list (string * Z))
    : string * Z :=
  match l with
  | [] => best
  | x :: l' =>
      if snd x >? snd best then max_by_count x l' else max_by_count best l'
  end.

(** The page size [stats] echoes. *)
Definition stats_page_size (args : Args) : Result Z :=
  match parse_int_arg args "pageSize" 10 (Some 1) (Some 50) with
  | Raise (ValueError _) => Ok 10
  | r => r
  end.

(** [func.avg(Movie.rating)] and the [or 0] for an empty table. *)
Definition avg_rating (db : Db) : Q :=
  match rows db with
  | [] => 0%Q
  | _ => (foldr Z.add 0 (Movie.rating <$> rows db) # 1)
         / (db_count db # 1)
  end.

Definition stats (args : Args) (db : Db) : Result Response :=
  let total := db_count db in
  let by_genre := group_count (Movie.genre <$> rows db) in
  let genre_counts : gmap string PyVal :=
    foldl (fun acc gc => <[fst gc := PInt (snd gc)]> acc) ∅ by_genre in
  let top_genre :=
    match by_genre with
    | [] => PNone
    | x :: l => PStr (fst (max_by_count x l))
    end in
  let* page_size := stats_page_size args in
  Ok (PDict {[ "total" := PInt total;
               "avgRating" := PFloat (FFinite (round2 (avg_rating db)));
               "topGenre" := top_genre;
               "byGenre" := PDict genre_counts;
               "currentPageSize" := PInt page_size ]}, 200).

End Handlers.

(** ** Notions the properties are stated with *)

(** The orders of [ORDER BY col ASC, id ASC] and [ORDER BY col DESC, id DESC]
    between two rows that follow each other. *)
Definition asc_order `{Engine} (c : SortCol) (a b : Movie.t) : Prop :=
  col_compare c a b = Lt
  \/ (col_compare c a b = Eq /\ Movie.id a <= Movie.id b).

Definition desc_order `{Engine} (c : SortCol) (a b : Movie.t) : Prop :=
  col_compare c a b = Gt
  \/ (col_compare c a b = Eq /\ Movie.id b <= Movie.id a).

(** The page size the specification describes: an integer, 10 when absent,
    kept within 1 and 50, and 10 when the text is not an integer. *)
Definition spec_page_size (raw : option string) : Z :=
  match raw with
  | None => 10
  | Some r =>
      match PyStr.int_of_str r with
      | Some n => Z.min 50 (Z.max 1 n)
      | None => 10
      end
  end.



(** A text field the validation can read: absent, or a value whose
    [(v or "")] is text. *)
Definition readable (x : option PyVal) : Prop :=
  exists s, PyVal_ops.or_else x (PStr "") = PStr s.

(** The row the [k]-th turn (from 0) of the seeding loop adds for index [i],
    when the first free primary key is [base]. *)
Definition seeded_row (clock : Z -> Z) (base : Z) (k : nat) (i : Z) : Movie.t :=
  let '(t, g, r, img) := seed_columns i in
  Movie.mk (base + Z.of_nat k) t g r img (clock i).

(** ** An engine to evaluate on

    Byte-wise collation and equality, [LIKE] with its two wildcards on
    lower-cased text, groups in order of first occurrence, and the number
    of a timestamp as its text.  Integers are bound up to [2^63 - 1] and
    the driver raises [OverflowError] beyond; after a delete the next id is
    the one after the highest id left, as with a plain integer key on
    SQLite. *)

Fixpoint like (pat : string) : string -> bool :=
  match pat with
  | EmptyString => fun s => String.eqb s ""
  | String c pat' =>
      if Ascii.eqb c "%"
      then fix star (s : string) : bool :=
             like pat' s
             || match s with
                | EmptyString => false
                | String _ s' => star s'
                end
      else fun s =>
             match s with
             | EmptyString => false
             | String d s' => (Ascii.eqb c "_" || Ascii.eqb c d) && like pat' s'
             end
  end.

Fixpoint count_group (g : string) (acc : list (string * Z))
    : list (string * Z) :=
  match acc with
  | [] => [(g, 1)]
  | (g', n) :: acc' =>
      if String.eqb g g' then (g', n + 1) :: acc'
      else (g', n) :: count_group g acc'
  end.

Lemma string_compare_trans a b c :
  String.compare a b <> Gt -> String.compare b c <> Gt ->
  String.compare a c <> Gt.
Proof.
  revert b c. induction a as [|x a IH]; intros [|y b] [|z c]; cbn;
    try congruence.
  unfold Ascii.compare.
  destruct (N.compare_spec (N_of_ascii x) (N_of_ascii y));
    destruct (N.compare_spec (N_of_ascii y) (N_of_ascii z));
    destruct (N.compare_spec (N_of_ascii x) (N_of_ascii z));
    try congruence; try (exfalso; lia).
  apply IH.
Qed.

(** The id after the highest one in use, 1 on an empty table. *)
Definition after_highest (ids : list Z) : Z := 1 + foldr Z.max 0 ids.

Lemma after_highest_fresh (ids : list Z) (n : Z) :
  Forall (fun i => i < n) ids -> Forall (fun i => i < after_highest ids) ids.
Proof.
  intros _. unfold after_highest. induction ids as [|x ids IH]; constructor.
  - cbn. lia.
  - eapply Forall_impl; [exact IH|]. cbn. intros; lia.
Qed.

Definition binary_engine : Engine := {|
  collate := String.compare;
  collate_antisym := fun a b => String.compare_antisym b a;
  collate_trans := string_compare_trans;
  sql_ilike := fun s pat => like (PyStr.lower pat) (PyStr.lower s);
  sql_eq := String.eqb;
  group_count := fun gs => foldl (fun acc g => count_group g acc) [] gs;
  isoformat := pretty;
  round2 := fun q => q;
  int_max := 9223372036854775807;
  int_max_nonneg := ltac:(lia);
  int_overflow := OverflowError;
  next_id_after_delete := fun ids _ => after_highest ids;
  next_id_after_delete_fresh := after_highest_fresh
|}.

(** ** Invariants of the table and further notions *)

(** The primary key works as one: ids are pairwise distinct and below the
    next id the engine hands out. *)
Definition db_wf (db : Db) : Prop :=
  NoDup (Movie.id <$> rows db)
  /\ Forall (fun m => Movie.id m < next_id db) (rows db).

(** What a record holds once it went through the validation: a rating
    within 1 and 10 and trimmed text of the lengths the validation asks. *)
Definition movie_valid (m : Movie.t) : Prop :=
  1 <= Movie.rating m <= 10
  /\ 1 <= PyStr.len (Movie.title m)
  /\ PyStr.strip (Movie.title m) = Movie.title m
  /\ 1 <= PyStr.len (Movie.genre m)
  /\ PyStr.strip (Movie.genre m) = Movie.genre m
  /\ 5 <= PyStr.len (Movie.image_url m)
  /\ PyStr.strip (Movie.image_url m) = Movie.image_url m.

(** [query.offset((page - 1) * page_size).limit(page_size)] *)
Definition page_slice (page page_size : Z) (query : list Movie.t)
    : list Movie.t :=
  take (Z.to_nat page_size) (drop (Z.to_nat ((page - 1) * page_size)) query).

(** [movie_valid] as a test. *)
Definition movie_validb (m : Movie.t) : bool :=
  (1 <=? Movie.rating m) && (Movie.rating m <=? 10)
  && (1 <=? PyStr.len (Movie.title m))
  && String.eqb (PyStr.strip (Movie.title m)) (Movie.title m)
  && (1 <=? PyStr.len (Movie.genre m))
  && String.eqb (PyStr.strip (Movie.genre m)) (Movie.genre m)
  && (5 <=? PyStr.len (Movie.image_url m))
  && String.eqb (PyStr.strip (Movie.image_url m)) (Movie.image_url m).

(** A request argument that does not filter: absent, or nothing but
    white space. *)
Definition blank_arg (x : option string) : Prop :=
  match x with
  | None => True
  | Some s => PyStr.strip s = ""
  end.

(** The text [list_movies] filters with, read from a request argument. *)
Definition filter_text (x : option string) : string :=
  PyStr.strip (str_or x "").

(** The start of the module: [db_url = (os.environ.get("DATABASE_URL") or
    "").strip()], and the [RuntimeError] raised when it is empty, which is
    [None] here; [env] is the value of the variable, if set. *)
Definition database_url (env : option string) : option string :=
  let db_url := PyStr.strip (str_or env "") in
  if String.eqb db_url "" then None else Some db_url.

(** The four fields of a payload the service reads. *)
Definition payload_fields : list string :=
  ["title"; "genre"; "rating"; "imageUrl"].

(** ** Tables and payloads to evaluate on *)

(** A table with one record, below the threshold but not empty. *)
Definition one_row_db : Db :=
  {| rows := [Movie.mk 1 "Heat" "Crime" 8 "https://img.example/heat.png" 0];
     next_id := 2 |}.

(** The table after seeding an empty one, to evaluate on. *)
Definition demo_db : Db :=
  seed_if_empty (fun i => i) 30 {| rows := []; next_id := 1 |}.

(** Two records to order by rating. *)
Definition two_rows_db : Db :=
  {| rows := [Movie.mk 1 "Alien" "Horror" 3 "https://img.example/a.png" 100;
              Movie.mk 2 "Brazil" "Comedy" 7 "https://img.example/b.png" 200];
     next_id := 3 |}.

(** A create request with [rating = 15]. *)
Definition rating_15_payload : gmap string PyVal :=
  {[ "title" := PStr "Heat"; "genre" := PStr "Crime"; "rating" := PInt 15;
     "imageUrl" := PStr "https://img.example/heat.png" ]}.

(** * Properties *)

(** ** Seeding *)

Lemma add_all_seeded_spec clock idxs db :
  rows (add_all_seeded clock idxs db)
    = (rows db ++ imap (seeded_row clock (next_id db)) idxs)%list
  /\ next_id (add_all_seeded clock idxs db)
    = next_id db + Z.of_nat (length idxs).
Proof.
  revert db. induction idxs as [|i idxs IH]; intros db.
  - cbn. rewrite app_nil_r. split; [reflexivity | lia].
  - unfold add_all_seeded in *. cbn [foldl].
    destruct (IH (snd (let '(t, g, r, img) := seed_columns i in
                       db_add (clock i) t g r img db))) as [IHr IHn].
    unfold add_all_seeded in *.
    destruct (seed_columns i) as [[[t g] r] img] eqn:Hc.
    cbn [snd db_add rows next_id] in *.
    split.
    + rewrite IHr. rewrite <- app_assoc. f_equal. cbn [imap app].
      f_equal.
      * unfold seeded_row. rewrite Hc. f_equal. lia.
      * apply imap_ext. intros k j _. unfold seeded_row, compose.
        destruct (seed_columns j) as [[[? ?] ?] ?]. f_equal. lia.
    + rewrite IHn. cbn [length]. lia.
Qed.

Lemma seed_adds_rows clock db :
  db_count db < 30 ->
  rows (seed_if_empty clock 30 db)
    = (rows db ++ imap (seeded_row clock (next_id db)) (range1 30))%list.
Proof.
  intros Hlt. unfold seed_if_empty.
  destruct (db_count db >=? 30) eqn:Hge; [lia|].
  apply add_all_seeded_spec.
Qed.

Lemma seed_noop clock db :
  30 <= db_count db -> seed_if_empty clock 30 db = db.
Proof.
  intros Hge. unfold seed_if_empty.
  destruct (db_count db >=? 30) eqn:E; [reflexivity | lia].
Qed.

Lemma seed_count clock db :
  db_count db < 30 ->
  db_count (seed_if_empty clock 30 db) = db_count db + 30.
Proof.
  intros Hlt. unfold db_count at 1. rewrite seed_adds_rows by assumption.
  rewrite length_app, length_imap. unfold range1. rewrite length_seqZ.
  unfold db_count. lia.
Qed.

Lemma seeded_row_lookup clock base (k : nat) :
  (k < 30)%nat ->
  imap (seeded_row clock base) (range1 30) !! k
    = Some (seeded_row clock base k (1 + Z.of_nat k)).
Proof.
  intros Hk. rewrite list_lookup_imap. unfold range1.
  rewrite lookup_seqZ_lt by lia. reflexivity.
Qed.

Lemma genre_in_range (i : Z) :
  exists g, genres !! Z.to_nat ((i - 1) mod Z.of_nat (length genres)) = Some g.
Proof.
  apply lookup_lt_is_Some_2. cbn [length genres].
  pose proof (Z.mod_pos_bound (i - 1) 8 ltac:(lia)). lia.
Qed.

(** C2, as stated, fails: from a table of one record the seeding leaves 31
    records, not 30. *)
Lemma seed_one_row_gives_31 :
  db_count one_row_db = 1
  /\ db_count (seed_if_empty (fun i => i) 30 one_row_db) = 31
  /\ db_count (seed_if_empty (fun i => i) 30 one_row_db) <> 30.
Proof.
  assert (H : db_count (seed_if_empty (fun i => i) 30 one_row_db) = 31).
  { rewrite seed_count; reflexivity. }
  split; [reflexivity|]. split; [exact H | rewrite H; lia].
Qed.

(** C2 (amended): from every record count below 30 the seeding appends
    exactly 30 placeholder records to the records already there, so the
    count afterwards is the initial count plus 30: at least 30, and 30
    exactly when the table was empty. *)
Theorem seed_below_threshold_adds_thirty (clock : Z -> Z) (db : Db) :
  db_count db < 30 ->
  exists added,
    rows (seed_if_empty clock 30 db) = (rows db ++ added)%list
    /\ length added = 30%nat
    /\ db_count (seed_if_empty clock 30 db) = db_count db + 30
    /\ 30 <= db_count (seed_if_empty clock 30 db)
    /\ (db_count (seed_if_empty clock 30 db) = 30 <-> db_count db = 0).
Proof.
  intros Hlt.
  exists (imap (seeded_row clock (next_id db)) (range1 30)).
  pose proof (seed_count clock db Hlt) as Hc.
  assert (0 <= db_count db) by (unfold db_count; lia).
  split; [apply seed_adds_rows, Hlt|].
  split; [rewrite length_imap; unfold range1; rewrite length_seqZ; reflexivity|].
  lia.
Qed.

Lemma seed_below_threshold_adds_thirty_witness :
  db_count one_row_db < 30
  /\ exists added,
    rows (seed_if_empty (fun i => i) 30 one_row_db)
      = (rows one_row_db ++ added)%list
    /\ length added = 30%nat
    /\ db_count (seed_if_empty (fun i => i) 30 one_row_db)
       = db_count one_row_db + 30
    /\ 30 <= db_count (seed_if_empty (fun i => i) 30 one_row_db)
    /\ (db_count (seed_if_empty (fun i => i) 30 one_row_db) = 30
        <-> db_count one_row_db = 0).
Proof.
  split; [reflexivity|].
  apply (seed_below_threshold_adds_thirty (fun i => i) one_row_db).
  reflexivity.
Defined.

(** C3: seeding a table of 30 records or more changes nothing, so seeding
    twice is seeding once; and from an empty table the seeding leaves at
    least 30 records, the [i]-th of which (from 1) has rating
    [((i-1) mod 10) + 1] and the genre at place [(i-1) mod 8] of the list
    of 8 genres. *)
Theorem seed_idempotent_and_cycles :
  length genres = 8%nat
  /\ (forall clock db, 30 <= db_count db -> seed_if_empty clock 30 db = db)
  /\ (forall clock clock' db,
        seed_if_empty clock' 30 (seed_if_empty clock 30 db)
          = seed_if_empty clock 30 db)
  /\ (forall clock db,
        rows db = [] ->
        30 <= db_count (seed_if_empty clock 30 db)
        /\ forall i, 1 <= i <= 30 ->
             exists m,
               rows (seed_if_empty clock 30 db) !! Z.to_nat (i - 1) = Some m
               /\ Movie.rating m = ((i - 1) mod 10) + 1
               /\ genres !! Z.to_nat ((i - 1) mod 8) = Some (Movie.genre m)).
Proof.
  split; [reflexivity|]. split; [exact seed_noop|]. split.
  - intros clock clock' db.
    destruct (Z_lt_le_dec (db_count db) 30) as [Hlt|Hge].
    + apply seed_noop. rewrite seed_count by assumption.
      unfold db_count. lia.
    + rewrite (seed_noop clock db Hge). apply seed_noop, Hge.
  - intros clock db Hempty.
    assert (Hlt : db_count db < 30) by (unfold db_count; rewrite Hempty; cbn; lia).
    split.
    + rewrite seed_count by assumption. unfold db_count. lia.
    + intros i Hi. rewrite seed_adds_rows by assumption. rewrite Hempty.
      cbn [app]. rewrite seeded_row_lookup by lia.
      eexists. split; [reflexivity|].
      replace (1 + Z.of_nat (Z.to_nat (i - 1))) with i by lia.
      destruct (genre_in_range i) as [g Hg].
      unfold seeded_row, seed_columns. rewrite Hg. cbn [default Movie.rating Movie.genre].
      split; [reflexivity|]. exact Hg.
Qed.

Lemma seed_idempotent_and_cycles_witness :
  30 <= db_count (seed_if_empty (fun i => i) 30 {| rows := []; next_id := 1 |})
  /\ exists m,
       rows (seed_if_empty (fun i => i) 30 {| rows := []; next_id := 1 |})
         !! Z.to_nat (12 - 1) = Some m
       /\ Movie.rating m = ((12 - 1) mod 10) + 1
       /\ genres !! Z.to_nat ((12 - 1) mod 8) = Some (Movie.genre m).
Proof.
  destruct seed_idempotent_and_cycles as (_ & _ & _ & H).
  destruct (H (fun i => i) {| rows := []; next_id := 1 |} eq_refl) as [Hc Hi].
  split; [exact Hc|]. apply Hi. lia.
Defined.

(** ** Ordering *)

Section Ordering.
Context `{Engine}.

Lemma col_compare_antisym c a b :
  col_compare c b a = CompOpp (col_compare c a b).
Proof.
  destruct c; cbn; try apply collate_antisym; apply Z.compare_antisym.
Qed.

Lemma key_compare_antisym c a b :
  key_compare c b a = CompOpp (key_compare c a b).
Proof.
  unfold key_compare. rewrite (col_compare_antisym c a b).
  destruct (col_compare c a b); cbn; try reflexivity.
  apply Z.compare_antisym.
Qed.

Lemma precedes_total asc c a b :
  precedes asc c a b = false -> precedes asc c b a = true.
Proof.
  unfold precedes. rewrite (key_compare_antisym c a b).
  destruct (key_compare c a b), asc; cbn; congruence.
Qed.

Lemma precedes_asc c a b : precedes true c a b = true <-> asc_order c a b.
Proof.
  unfold precedes, key_compare, asc_order.
  destruct (col_compare c a b); cbn.
  - destruct (Z.compare_spec (Movie.id a) (Movie.id b)); cbn;
      intuition (congruence || lia).
  - intuition congruence.
  - intuition congruence.
Qed.

Lemma precedes_desc c a b : precedes false c a b = true <-> desc_order c a b.
Proof.
  unfold precedes, key_compare, desc_order.
  destruct (col_compare c a b); cbn.
  - destruct (Z.compare_spec (Movie.id a) (Movie.id b)); cbn;
      intuition (congruence || lia).
  - intuition congruence.
  - intuition congruence.
Qed.

Lemma insert_row_perm asc c m l : Permutation (insert_row asc c m l) (m :: l).
Proof.
  induction l as [|x l IH]; cbn; [reflexivity|].
  destruct (precedes asc c m x); [reflexivity|].
  rewrite IH. apply perm_swap.
Qed.

Lemma order_by_perm asc c l : Permutation (order_by asc c l) l.
Proof.
  induction l as [|x l IH]; cbn; [reflexivity|].
  rewrite insert_row_perm. apply perm_skip, IH.
Qed.

Lemma order_by_length asc c l : length (order_by asc c l) = length l.
Proof. apply Permutation_length, order_by_perm. Qed.

Lemma insert_row_hd asc c m x l :
  precedes asc c x m = true ->
  HdRel (fun a b => precedes asc c a b = true) x l ->
  HdRel (fun a b => precedes asc c a b = true) x (insert_row asc c m l).
Proof.
  intros Hxm Hhd. destruct l as [|y l]; cbn.
  - constructor. exact Hxm.
  - destruct (precedes asc c m y); constructor; [exact Hxm|].
    inversion Hhd; assumption.
Qed.

Lemma insert_row_sorted asc c m l :
  Sorted (fun a b => precedes asc c a b = true) l ->
  Sorted (fun a b => precedes asc c a b = true) (insert_row asc c m l).
Proof.
  induction 1 as [|x l Hs IH Hhd]; cbn.
  - repeat constructor.
  - destruct (precedes asc c m x) eqn:Hmx.
    + constructor; [constructor; assumption|]. constructor. exact Hmx.
    + constructor; [exact IH|].
      apply insert_row_hd; [|exact Hhd]. apply precedes_total, Hmx.
Qed.

Lemma order_by_sorted asc c l :
  Sorted (fun a b => precedes asc c a b = true) (order_by asc c l).
Proof.
  induction l as [|x l IH]; cbn; [constructor|].
  apply insert_row_sorted, IH.
Qed.

Lemma Sorted_weaken {A} (R S : A -> A -> Prop) (l : list A) :
  (forall a b, R a b -> S a b) -> Sorted R l -> Sorted S l.
Proof.
  intros HRS. induction 1 as [|x l Hs IH Hhd]; constructor; [exact IH|].
  destruct Hhd; constructor. apply HRS. assumption.
Qed.

Lemma col_compare_trans c x y z :
  col_compare c x y <> Gt -> col_compare c y z <> Gt ->
  col_compare c x z <> Gt.
Proof.
  destruct c; cbn; try apply collate_trans;
    rewrite !Z.compare_gt_iff; lia.
Qed.

Lemma col_compare_Lt_Gt c x y : col_compare c x y = Lt -> col_compare c y x = Gt.
Proof. intros Hlt. rewrite (col_compare_antisym c x y), Hlt. reflexivity. Qed.

Lemma col_compare_Eq_sym c x y : col_compare c x y = Eq -> col_compare c y x = Eq.
Proof. intros Heq. rewrite (col_compare_antisym c x y), Heq. reflexivity. Qed.

(** The ascending order is transitive: the key is a pair ordered first on
    the column, then on the id. *)
Lemma asc_order_trans c : Transitive (asc_order c).
Proof.
  intros x y z Hxy Hyz. unfold asc_order in *.
  assert (Hle : col_compare c x z <> Gt).
  { apply (col_compare_trans c x y z); intuition congruence. }
  destruct (col_compare c x z) eqn:Hxz; [|auto|congruence].
  apply col_compare_Eq_sym in Hxz.
  destruct Hxy as [Hxy|[Hxy Hixy]].
  - exfalso. apply col_compare_Lt_Gt in Hxy.
    apply (col_compare_trans c y z x); [intuition congruence|congruence|exact Hxy].
  - destruct Hyz as [Hyz|[Hyz Hiyz]]; [|right; split; [reflexivity|lia]].
    exfalso. apply col_compare_Lt_Gt in Hyz.
    apply (col_compare_trans c z x y); congruence.
Qed.

Lemma desc_order_flip c x y : desc_order c x y <-> asc_order c y x.
Proof.
  unfold desc_order, asc_order. rewrite (col_compare_antisym c y x).
  destruct (col_compare c y x); cbn; intuition congruence.
Qed.

Lemma desc_order_trans c : Transitive (desc_order c).
Proof.
  intros x y z Hxy Hyz. apply desc_order_flip.
  apply desc_order_flip in Hxy, Hyz.
  exact (asc_order_trans c z y x Hyz Hxy).
Qed.

Lemma order_by_asc_sorted c l :
  StronglySorted (asc_order c) (order_by true c l).
Proof.
  apply Sorted_StronglySorted; [apply asc_order_trans|].
  eapply Sorted_weaken; [|apply order_by_sorted].
  intros a b. apply precedes_asc.
Qed.

Lemma order_by_desc_sorted c l :
  StronglySorted (desc_order c) (order_by false c l).
Proof.
  apply Sorted_StronglySorted; [apply desc_order_trans|].
  eapply Sorted_weaken; [|apply order_by_sorted].
  intros a b. apply precedes_desc.
Qed.

End Ordering.

(** ** Integer arguments *)

Lemma int_of_str_empty : PyStr.int_of_str "" = None.
Proof. reflexivity. Qed.

Lemma clamp_page n : clamp_max None (clamp_min (Some 1) n) = Z.max 1 n.
Proof. unfold clamp_max, clamp_min. destruct (Z.ltb_spec n 1); lia. Qed.

Lemma clamp_page_size n :
  clamp_max (Some 50) (clamp_min (Some 1) n) = Z.min 50 (Z.max 1 n).
Proof.
  unfold clamp_max, clamp_min. destruct (Z.ltb_spec n 1).
  - cbn. lia.
  - unfold Z.gtb. destruct (Z.compare_spec n 50); lia.
Qed.

(** The three ways [parse_int_arg] ends. *)
Lemma parse_int_arg_cases args name default min_v max_v :
  (parse_int_arg args name default min_v max_v = Ok default
   /\ (args_get name args = None \/ args_get name args = Some ""))
  \/ (exists raw n,
        args_get name args = Some raw /\ raw <> ""
        /\ PyStr.int_of_str raw = Some n
        /\ parse_int_arg args name default min_v max_v
           = Ok (clamp_max max_v (clamp_min min_v n)))
  \/ (exists raw,
        args_get name args = Some raw /\ raw <> ""
        /\ PyStr.int_of_str raw = None
        /\ parse_int_arg args name default min_v max_v
           = Raise (ValueError (name ++ " must be an integer"))).
Proof.
  unfold parse_int_arg. destruct (args_get name args) as [raw|]; [|auto].
  destruct (String.eqb_spec raw "") as [->|Hne]; [auto|].
  destruct (PyStr.int_of_str raw) as [n|] eqn:Hn.
  - right; left. exists raw, n. auto.
  - right; right. exists raw. auto.
Qed.

Lemma list_paging_bounds args page page_size :
  list_paging args = Ok (page, page_size) ->
  1 <= page /\ 1 <= page_size <= 50.
Proof.
  unfold list_paging, bind.
  destruct (parse_int_arg_cases args "page" 1 (Some 1) None)
    as [[Hp _]|[(rp & p & _ & _ & _ & Hp)|(rp & _ & _ & _ & Hp)]];
  rewrite ?clamp_page in Hp; rewrite Hp; try discriminate;
  (destruct (parse_int_arg_cases args "pageSize" 10 (Some 1) (Some 50))
    as [[Hs _]|[(rs & s & _ & _ & _ & Hs)|(rs & _ & _ & _ & Hs)]];
   rewrite ?clamp_page_size in Hs; rewrite Hs; try discriminate;
   intros [= <- <-]; lia).
Qed.

(** [(total + page_size - 1) // page_size] is the ceiling of
    [total / page_size]. *)
Lemma ceil_div total page_size :
  1 <= page_size ->
  let total_pages := (total + page_size - 1) / page_size in
  (total_pages - 1) * page_size < total <= total_pages * page_size.
Proof.
  intros Hps total_pages.
  pose proof (Z.div_mod (total + page_size - 1) page_size ltac:(lia)) as Hdm.
  pose proof (Z.mod_pos_bound (total + page_size - 1) page_size ltac:(lia)).
  fold total_pages in Hdm. nia.
Qed.

Section ListProperties.
Context `{Engine}.

(** The response of [list_movies] once both integer arguments are read and
    the offset is one the driver binds. *)
Lemma list_movies_ok args db page page_size :
  list_paging args = Ok (page, page_size) ->
  (page - 1) * page_size <= int_max ->
  list_movies args db
  = Ok (PDict {[ "items" := PList ((fun m => PDict (Movie.to_dict m)) <$>
                    take (Z.to_nat page_size)
                      (drop (Z.to_nat ((page - 1) * page_size))
                         (list_query args db)));
                 "total" := PInt (Z.of_nat (length (list_query args db)));
                 "page" := PInt page;
                 "pageSize" := PInt page_size;
                 "totalPages" :=
                   PInt ((Z.of_nat (length (list_query args db))
                          + page_size - 1) / page_size) ]}, 200).
Proof.
  intros Hp Hoff. pose proof (list_paging_bounds _ _ _ Hp) as [_ [Hps _]].
  unfold list_movies. rewrite Hp.
  destruct (Z.gtb_spec ((page - 1) * page_size) int_max); [lia|].
  destruct (Z.eqb_spec page_size 0); [lia|]. reflexivity.
Qed.


Lemma list_query_perm args db :
  Permutation (list_query args db) (list_matches args db).
Proof.
  unfold list_query. destruct (String.eqb _ "asc"); apply order_by_perm.
Qed.

Lemma list_query_length args db :
  length (list_query args db) = length (list_matches args db).
Proof. apply Permutation_length, list_query_perm. Qed.

Lemma list_query_sorted args db :
  StronglySorted (asc_order (list_sort_col args)) (list_query args db)
  \/ StronglySorted (desc_order (list_sort_col args)) (list_query args db).
Proof.
  unfold list_query. destruct (String.eqb _ "asc").
  - left. apply order_by_asc_sorted.
  - right. apply order_by_desc_sorted.
Qed.

End ListProperties.

(** ** Listing *)

(** C1, as stated, fails: [page=10000000000000000000] is a well-formed
    integer, yet the request gets no response at all: the offset is beyond
    what the driver binds and the query raises. *)
Lemma huge_page_gets_no_response :
  list_paging [("page", "10000000000000000000")]
  = Ok (10000000000000000000, 10)
  /\ list_movies (H := binary_engine) [("page", "10000000000000000000")]
       demo_db = Raise OverflowError.
Proof. split; vm_compute; reflexivity. Qed.

(** C1 (amended): when both integer arguments are well formed and the
    offset [(page-1)*pageSize] is one the driver binds, the response holds
    the records of the filtered and sorted sequence from that offset on, at
    most [pageSize] of them; [total] is the number of matching records
    before paging, and [totalPages] is the ceiling of [total / pageSize]. *)
Theorem list_movies_page `{Engine} (args : Args) (db : Db) (page page_size : Z) :
  list_paging args = Ok (page, page_size) ->
  (page - 1) * page_size <= int_max ->
  exists items total total_pages,
    list_movies args db
    = Ok (PDict {[ "items" := PList ((fun m => PDict (Movie.to_dict m)) <$> items);
                   "total" := PInt total;
                   "page" := PInt page;
                   "pageSize" := PInt page_size;
                   "totalPages" := PInt total_pages ]}, 200)
    /\ items = take (Z.to_nat page_size)
                 (drop (Z.to_nat ((page - 1) * page_size)) (list_query args db))
    /\ (forall k : nat,
          (k < length items)%nat ->
          items !! k
          = list_query args db !! (Z.to_nat ((page - 1) * page_size) + k)%nat)
    /\ Z.of_nat (length items) <= page_size
    /\ Permutation (list_query args db) (list_matches args db)
    /\ (StronglySorted (asc_order (list_sort_col args)) (list_query args db)
        \/ StronglySorted (desc_order (list_sort_col args)) (list_query args db))
    /\ total = Z.of_nat (length (list_matches args db))
    /\ (total_pages - 1) * page_size < total <= total_pages * page_size.
Proof.
  intros Hp Hoff. pose proof (list_paging_bounds _ _ _ Hp) as [Hpage [Hps _]].
  eexists _, _, _. split; [apply list_movies_ok; [exact Hp | exact Hoff]|].
  split; [reflexivity|]. split.
  { intros k Hk. rewrite length_take in Hk.
    rewrite lookup_take_lt by lia. apply lookup_drop. }
  split; [rewrite length_take; lia|].
  split; [apply list_query_perm|].
  split; [apply list_query_sorted|].
  split; [rewrite list_query_length; reflexivity|].
  apply ceil_div, Hps.
Qed.

Lemma list_movies_page_witness :
  list_paging [("page", "2"); ("pageSize", "10")] = Ok (2, 10)
  /\ (2 - 1) * 10 <= @int_max binary_engine
  /\ exists items total total_pages,
       list_movies (H := binary_engine) [("page", "2"); ("pageSize", "10")] demo_db
       = Ok (PDict {[ "items" := PList ((fun m => PDict (@Movie.to_dict binary_engine m)) <$> items);
                      "total" := PInt total;
                      "page" := PInt 2;
                      "pageSize" := PInt 10;
                      "totalPages" := PInt total_pages ]}, 200)
       /\ Z.of_nat (length items) <= 10
       /\ (total_pages - 1) * 10 < total <= total_pages * 10.
Proof.
  assert (Hoff : (2 - 1) * 10 <= @int_max binary_engine)
    by (vm_compute; discriminate).
  split; [reflexivity|]. split; [exact Hoff|].
  destruct (list_movies_page (H := binary_engine)
              [("page", "2"); ("pageSize", "10")] demo_db 2 10 eq_refl Hoff)
    as (items & total & total_pages & Hr & _ & _ & Hlen & _ & _ & _ & Hceil).
  exists items, total, total_pages. split; [exact Hr|]. split; assumption.
Defined.

(** C10, as stated, fails: [page=10000000000000000000] lies beyond the last
    page of the 30 matches, yet the request does not succeed: the offset is
    beyond what the driver binds and the query raises. *)
Lemma page_far_beyond_last_raises :
  list_paging [("page", "10000000000000000000"); ("pageSize", "10")]
  = Ok (10000000000000000000, 10)
  /\ Z.of_nat (length (list_matches (H := binary_engine)
                         [("page", "10000000000000000000"); ("pageSize", "10")]
                         demo_db))
     <= (10000000000000000000 - 1) * 10
  /\ list_movies (H := binary_engine)
       [("page", "10000000000000000000"); ("pageSize", "10")] demo_db
     = Raise OverflowError.
Proof.
  split; [vm_compute; reflexivity|].
  split; [vm_compute; discriminate | vm_compute; reflexivity].
Qed.

(** C10 (amended): a page beyond the last one, whose offset the driver still
    binds, is not an error: the response has status 200 and no items, and
    it still reports [total] and [totalPages] of the whole matching set. *)
Theorem list_movies_beyond_last `{Engine} (args : Args) (db : Db)
    (page page_size : Z) :
  list_paging args = Ok (page, page_size) ->
  Z.of_nat (length (list_matches args db)) <= (page - 1) * page_size ->
  (page - 1) * page_size <= int_max ->
  exists total total_pages,
    list_movies args db
    = Ok (PDict {[ "items" := PList [];
                   "total" := PInt total;
                   "page" := PInt page;
                   "pageSize" := PInt page_size;
                   "totalPages" := PInt total_pages ]}, 200)
    /\ total = Z.of_nat (length (list_matches args db))
    /\ (total_pages - 1) * page_size < total <= total_pages * page_size.
Proof.
  intros Hp Hbeyond Hoff.
  pose proof (list_paging_bounds _ _ _ Hp) as [Hpage [Hps _]].
  eexists _, _. split; [|split; [reflexivity|apply ceil_div, Hps]].
  rewrite (list_movies_ok _ _ _ _ Hp Hoff).
  rewrite drop_ge by (rewrite list_query_length; lia).
  rewrite take_nil, list_query_length. reflexivity.
Qed.

Lemma list_movies_beyond_last_witness :
  list_paging [("page", "9"); ("pageSize", "10")] = Ok (9, 10)
  /\ Z.of_nat (length (list_matches (H := binary_engine)
                         [("page", "9"); ("pageSize", "10")] demo_db))
     <= (9 - 1) * 10
  /\ (9 - 1) * 10 <= @int_max binary_engine
  /\ exists total total_pages,
       list_movies (H := binary_engine) [("page", "9"); ("pageSize", "10")] demo_db
       = Ok (PDict {[ "items" := PList [];
                      "total" := PInt total;
                      "page" := PInt 9;
                      "pageSize" := PInt 10;
                      "totalPages" := PInt total_pages ]}, 200)
       /\ total = 30.
Proof.
  assert (Hb : Z.of_nat (length (list_matches (H := binary_engine)
                         [("page", "9"); ("pageSize", "10")] demo_db))
               <= (9 - 1) * 10) by (vm_compute; discriminate).
  assert (Hoff : (9 - 1) * 10 <= @int_max binary_engine)
    by (vm_compute; discriminate).
  split; [reflexivity|]. split; [exact Hb|]. split; [exact Hoff|].
  destruct (list_movies_beyond_last (H := binary_engine)
              [("page", "9"); ("pageSize", "10")] demo_db 9 10 eq_refl Hb Hoff)
    as (total & total_pages & Hr & Ht & _).
  exists total, total_pages. split; [exact Hr|]. rewrite Ht. reflexivity.
Defined.


Lemma list_paging_ints args rp rs p s :
  args_get "page" args = Some rp -> PyStr.int_of_str rp = Some p ->
  args_get "pageSize" args = Some rs -> PyStr.int_of_str rs = Some s ->
  list_paging args = Ok (Z.max 1 p, Z.min 50 (Z.max 1 s)).
Proof.
  intros Hrp Hp Hrs Hs. unfold list_paging, parse_int_arg.
  rewrite Hrp, Hrs.
  destruct (String.eqb_spec rp "") as [->|_]; [discriminate|].
  destruct (String.eqb_spec rs "") as [->|_]; [discriminate|].
  rewrite Hp, Hs. cbn [bind]. rewrite clamp_page, clamp_page_size. reflexivity.
Qed.







(** ** Direction of the ordering *)

(** C7, as stated, fails: [dir=ASC] is not the exact text [asc], yet the
    records come in ascending order of rating, not in descending order. *)
Lemma dir_uppercase_is_ascending :
  args_get "dir" [("sort", "rating"); ("dir", "ASC")] = Some "ASC"
  /\ "ASC" <> "asc"
  /\ Movie.id <$> list_query (H := binary_engine)
                    [("sort", "rating"); ("dir", "ASC")] two_rows_db = [1; 2]
  /\ Movie.rating <$> list_query (H := binary_engine)
                    [("sort", "rating"); ("dir", "ASC")] two_rows_db = [3; 7]
  /\ ~ StronglySorted (desc_order (H := binary_engine) ByRating)
         (list_query (H := binary_engine)
            [("sort", "rating"); ("dir", "ASC")] two_rows_db).
Proof.
  split; [reflexivity|]. split; [discriminate|].
  split; [reflexivity|]. split; [reflexivity|].
  intros Hs. vm_compute list_query in Hs.
  inversion Hs as [|? ? _ Hhd]; subst. inversion Hhd as [|? ? Hd]; subst.
  destruct Hd as [Hd|[Hd _]]; discriminate Hd.
Qed.

Lemma list_direction_asc `{Engine} args db d :
  args_get "dir" args = Some d ->
  PyStr.lower (PyStr.strip d) = "asc" ->
  list_query args db = order_by true (list_sort_col args) (list_matches args db).
Proof.
  intros Hd Hasc. unfold list_query. rewrite Hd. unfold str_or.
  destruct (String.eqb_spec d "") as [->|_]; [discriminate|].
  rewrite Hasc. reflexivity.
Qed.

Lemma list_direction_desc `{Engine} args db :
  (args_get "dir" args = None
   \/ exists d, args_get "dir" args = Some d
                /\ PyStr.lower (PyStr.strip d) <> "asc") ->
  list_query args db = order_by false (list_sort_col args) (list_matches args db).
Proof.
  intros Hd. unfold list_query.
  destruct Hd as [Hd|(d & Hd & Hne)]; rewrite Hd; unfold str_or.
  - reflexivity.
  - destruct (String.eqb_spec d "") as [->|_]; [reflexivity|].
    destruct (String.eqb_spec (PyStr.lower (PyStr.strip d)) "asc");
      [contradiction | reflexivity].
Qed.

(** C7 (amended): [dir] is [desc] when absent; a value is ascending exactly
    when it reads [asc] once surrounding white space is dropped and capitals
    are lowered, and every other value is descending.  Either way the
    matching records are ordered on the resolved column with the id as
    tie-break in the same direction. *)
Theorem list_direction `{Engine} (args : Args) (db : Db) :
  Permutation (list_query args db) (list_matches args db)
  /\ (args_get "dir" args = None ->
      StronglySorted (desc_order (list_sort_col args)) (list_query args db))
  /\ (forall d,
        args_get "dir" args = Some d ->
        PyStr.lower (PyStr.strip d) <> "asc" ->
        StronglySorted (desc_order (list_sort_col args)) (list_query args db))
  /\ (forall d,
        args_get "dir" args = Some d ->
        PyStr.lower (PyStr.strip d) = "asc" ->
        StronglySorted (asc_order (list_sort_col args)) (list_query args db)).
Proof.
  split; [apply list_query_perm|]. split; [|split].
  - intros Hd. rewrite list_direction_desc by auto.
    apply order_by_desc_sorted.
  - intros d Hd Hne. rewrite list_direction_desc by eauto.
    apply order_by_desc_sorted.
  - intros d Hd Hasc. rewrite (list_direction_asc _ _ _ Hd Hasc).
    apply order_by_asc_sorted.
Qed.

Lemma list_direction_witness :
  StronglySorted (desc_order (H := binary_engine) ByRating)
    (list_query (H := binary_engine) [("sort", "rating")] two_rows_db)
  /\ StronglySorted (desc_order (H := binary_engine) ByRating)
       (list_query (H := binary_engine)
          [("sort", "rating"); ("dir", "up")] two_rows_db)
  /\ StronglySorted (asc_order (H := binary_engine) ByRating)
       (list_query (H := binary_engine)
          [("sort", "rating"); ("dir", " Asc ")] two_rows_db).
Proof.
  split; [|split].
  - destruct (list_direction (H := binary_engine)
                [("sort", "rating")] two_rows_db) as (_ & Hnone & _).
    apply Hnone. reflexivity.
  - destruct (list_direction (H := binary_engine)
                [("sort", "rating"); ("dir", "up")] two_rows_db)
      as (_ & _ & Hdesc & _).
    apply (Hdesc "up"); [reflexivity | discriminate].
  - destruct (list_direction (H := binary_engine)
                [("sort", "rating"); ("dir", " Asc ")] two_rows_db)
      as (_ & _ & _ & Hasc).
    apply (Hasc " Asc "); reflexivity.
Defined.

(** ** Statistics *)

(** C9: [stats] always answers with status 200; the page size it echoes is
    read and clamped as in [list_movies], and is 10 when the text is not an
    integer. *)
Theorem stats_page_size_never_fails `{Engine} (args : Args) (db : Db) :
  exists body ps,
    stats args db = Ok (PDict body, 200)
    /\ body !! "currentPageSize" = Some (PInt ps)
    /\ ps = spec_page_size (args_get "pageSize" args)
    /\ 1 <= ps <= 50
    /\ (forall page page_size,
          list_paging args = Ok (page, page_size) -> page_size = ps)
    /\ (forall raw,
          args_get "pageSize" args = Some raw ->
          PyStr.int_of_str raw = None -> ps = 10).
Proof.
  assert (Hps : stats_page_size args
                = Ok (spec_page_size (args_get "pageSize" args))).
  { unfold stats_page_size, spec_page_size.
    destruct (parse_int_arg_cases args "pageSize" 10 (Some 1) (Some 50))
      as [[Hs [Hr|Hr]]|[(rs & s & Hr & _ & Hi & Hs)|(rs & Hr & _ & Hi & Hs)]];
      rewrite Hs, Hr; rewrite ?Hi, ?clamp_page_size; reflexivity. }
  eexists _, (spec_page_size (args_get "pageSize" args)).
  split; [unfold stats; rewrite Hps; reflexivity|].
  split; [by simplify_map_eq|]. split; [reflexivity|].
  split; [|split].
  - unfold spec_page_size. destruct (args_get "pageSize" args) as [r|]; [|lia].
    destruct (PyStr.int_of_str r); lia.
  - intros page page_size. unfold list_paging, bind.
    destruct (parse_int_arg args "page" 1 (Some 1) None); [|discriminate].
    unfold stats_page_size in Hps.
    destruct (parse_int_arg args "pageSize" 10 (Some 1) (Some 50)) as [v|e];
      [|discriminate].
    intros [= _ <-]. congruence.
  - intros raw Hr Hi. unfold spec_page_size. rewrite Hr, Hi. reflexivity.
Qed.

Lemma stats_page_size_never_fails_witness :
  exists body,
    stats (H := binary_engine) [("pageSize", "ten")] demo_db
      = Ok (PDict body, 200)
    /\ body !! "currentPageSize" = Some (PInt 10).
Proof.
  destruct (stats_page_size_never_fails (H := binary_engine)
              [("pageSize", "ten")] demo_db)
    as (body & ps & Hr & Hb & _ & _ & _ & Hbad).
  exists body. split; [exact Hr|].
  rewrite Hb, (Hbad "ten"); reflexivity.
Defined.

(** ** Validation *)

Lemma get_stripped_ok d field :
  readable (d !! field) -> exists t, get_stripped d field = Ok t.
Proof. intros [s Hs]. unfold get_stripped. rewrite Hs. cbn. eauto. Qed.

Lemma validate_dict_returns d partial :
  readable (d !! "title") -> readable (d !! "genre") ->
  readable (d !! "imageUrl") ->
  exists errors, validate_dict d partial = Ok errors.
Proof.
  intros Ht Hg Hi. unfold validate_dict.
  destruct (get_stripped_ok d "title" Ht) as [t ->].
  destruct (get_stripped_ok d "genre" Hg) as [g ->].
  destruct (get_stripped_ok d "imageUrl" Hi) as [i ->].
  cbn [bind]. eauto.
Qed.

Lemma require_lookup_ne d field (errors : gmap string string) k :
  k <> field -> require d field errors !! k = errors !! k.
Proof.
  intros Hne. unfold require.
  destruct (d !! field) as [v|]; [destruct (PyVal_ops.str_is_blank v)|];
    rewrite ?lookup_insert_ne by congruence; reflexivity.
Qed.

Lemma require_lookup_eq d field (errors : gmap string string) :
  is_Some (require d field errors !! field) ->
  is_Some (errors !! field)
  \/ (d !! field = None
      \/ exists v, d !! field = Some v /\ PyVal_ops.str_is_blank v = true).
Proof.
  unfold require. destruct (d !! field) as [v|]; [|auto].
  destruct (PyVal_ops.str_is_blank v) eqn:Hb; [|auto].
  intros _. right; right. eauto.
Qed.

(** The errors gathered before the rating is checked hold [rating] only
    when [require] put it there. *)
Lemma validate_dict_inv d partial errors :
  validate_dict d partial = Ok errors ->
  exists pre,
    errors = check_rating d pre
    /\ (is_Some (pre !! "rating") ->
        partial = false
        /\ (d !! "rating" = None
            \/ exists v, d !! "rating" = Some v
                         /\ PyVal_ops.str_is_blank v = true)).
Proof.
  unfold validate_dict.
  destruct (get_stripped d "title") as [t|]; [|discriminate].
  destruct (get_stripped d "genre") as [g|]; [|discriminate].
  destruct (get_stripped d "imageUrl") as [i|]; [|discriminate].
  cbn [bind]. intros [= <-]. eexists. split; [reflexivity|].
  intros Hr.
  repeat match type of Hr with
         | context [if ?b then _ else _] =>
             destruct b; rewrite ?lookup_insert_ne in Hr by discriminate
         end;
    try (rewrite lookup_empty in Hr; destruct Hr; discriminate).
  all: split; [reflexivity|].
  all: rewrite require_lookup_ne in Hr by discriminate.
  all: apply require_lookup_eq in Hr as [Hr|Hr]; [|exact Hr].
  all: rewrite !require_lookup_ne in Hr by discriminate.
  all: rewrite lookup_empty in Hr; destruct Hr; discriminate.
Qed.

Lemma rstrip_by_head sp c s :
  PyStr.rstrip_by sp (String c s) = ""
  \/ exists r, PyStr.rstrip_by sp (String c s) = String c r.
Proof.
  cbn. destruct (PyStr.rstrip_by sp s); [destruct (sp c)|]; eauto.
Qed.

Lemma rstrip_by_empty sp c s :
  PyStr.rstrip_by sp (String c s) = "" -> sp c = true.
Proof.
  cbn. destruct (PyStr.rstrip_by sp s); [destruct (sp c)|]; congruence.
Qed.

(** Text that strips to nothing has a white-space character in front of
    whatever [int()] leaves of it. *)
Lemma strip_empty_int_head s :
  PyStr.strip s = "" ->
  PyStr.lstrip_by PyStr.is_int_space s = ""
  \/ exists c r, PyStr.lstrip_by PyStr.is_int_space s = String c r
                 /\ PyStr.is_space c = true.
Proof.
  unfold PyStr.strip. induction s as [|c s IH]; [auto|].
  cbn [PyStr.lstrip_by]. destruct (PyStr.is_space c) eqn:Hc.
  - intros Hs. destruct (PyStr.is_int_space c); [auto|]. right. eauto.
  - intros Hs. apply rstrip_by_empty in Hs. congruence.
Qed.

Lemma space_not_literal c r :
  PyStr.is_space c = true ->
  match String c r with
  | String "-" r => option_map Z.opp (PyStr.parse_digits 0 false r)
  | String "+" r => PyStr.parse_digits 0 false r
  | r => PyStr.parse_digits 0 false r
  end = None.
Proof.
  destruct c as [[|] [|] [|] [|] [|] [|] [|] [|]];
    intros Hc; try discriminate Hc; reflexivity.
Qed.

Lemma blank_int_raises v :
  PyVal_ops.str_is_blank v = true -> exists e, PyVal_ops.int v = Raise e.
Proof.
  destruct v; cbn; try discriminate. intros Hb.
  apply String.eqb_eq in Hb.
  assert (Hn : PyStr.int_of_str s = None).
  { unfold PyStr.int_of_str.
    destruct (strip_empty_int_head s Hb) as [->|(c & r & -> & Hc)];
      [reflexivity|].
    destruct (rstrip_by_head PyStr.is_int_space c r) as [->|[r' ->]];
      [reflexivity|].
    apply space_not_literal, Hc. }
  rewrite Hn. eauto.
Qed.

Lemma check_rating_lookup d (pre : gmap string string) v :
  d !! "rating" = Some v ->
  (is_Some (check_rating d pre !! "rating")
   <-> (exists e, PyVal_ops.int v = Raise e)
       \/ (exists n, PyVal_ops.int v = Ok n /\ (n < 1 \/ 10 < n))
       \/ is_Some (pre !! "rating")).
Proof.
  intros Hv. unfold check_rating. rewrite Hv.
  destruct (PyVal_ops.int v) as [n|e].
  - destruct (Z.ltb_spec n 1); cbn [orb].
    + rewrite lookup_insert_eq. split; [|eauto]. intros _. right; left.
      exists n. split; [reflexivity | lia].
    + unfold Z.gtb. destruct (Z.compare_spec n 10).
      * split; [auto|]. intros [[e He]|[(k & [= <-] & Hk)|Hp]];
          [discriminate | lia | exact Hp].
      * split; [auto|]. intros [[e He]|[(k & [= <-] & Hk)|Hp]];
          [discriminate | lia | exact Hp].
      * rewrite lookup_insert_eq. split; [|eauto]. intros _. right; left.
        exists n. split; [reflexivity | lia].
  - rewrite lookup_insert_eq. split; eauto.
Qed.

(** C4, as stated, fails: the number 7.5 and the boolean [true] are not
    integers, yet a payload carrying either as [rating] passes validation
    with no error at all. *)
Lemma non_integer_rating_accepted :
  validate_movie_payload
    (PDict {[ "title" := PStr "Heat"; "genre" := PStr "Crime";
              "rating" := PFloat (FFinite (15 # 2));
              "imageUrl" := PStr "https://img.example/heat.png" ]}) false
  = Ok ∅
  /\ PyVal_ops.int (PFloat (FFinite (15 # 2))) = Ok 7
  /\ validate_movie_payload (PDict {[ "rating" := PBool true ]}) true = Ok ∅
  /\ PyVal_ops.int (PBool true) = Ok 1.
Proof. repeat split; vm_compute; reflexivity. Qed.

(** C4 (amended): when [rating] is present and validation returns, it
    reports an error on [rating] exactly when Python's [int()] raises on
    the value or the integer [int()] gives is outside 1..10.  Values that
    [int()] converts are judged by the converted integer: a boolean counts
    as 0 or 1, a finite float is cut towards zero, text may carry a sign,
    surrounding white space and single underscores between digits.
    Validation returns whenever the three text fields are readable. *)
Theorem rating_error_iff (d : gmap string PyVal) (partial : bool) (v : PyVal) :
  d !! "rating" = Some v ->
  (readable (d !! "title") -> readable (d !! "genre") ->
   readable (d !! "imageUrl") ->
   exists errors, validate_movie_payload (PDict d) partial = Ok errors)
  /\ (forall errors,
        validate_movie_payload (PDict d) partial = Ok errors ->
        (is_Some (errors !! "rating")
         <-> (exists e, PyVal_ops.int v = Raise e)
             \/ (exists n, PyVal_ops.int v = Ok n /\ (n < 1 \/ 10 < n)))).
Proof.
  intros Hv. split; [apply validate_dict_returns|].
  intros errors Hval. cbn [validate_movie_payload] in Hval.
  destruct (validate_dict_inv _ _ _ Hval) as (pre & -> & Hpre).
  rewrite (check_rating_lookup d pre v Hv).
  split; [|tauto].
  intros [Hraise|[Hout|Hreq]]; [auto | auto |].
  destruct (Hpre Hreq) as [_ [Hnone|(v' & Hv' & Hblank)]]; [congruence|].
  left. apply blank_int_raises. congruence.
Qed.

Lemma rating_error_iff_witness :
  ({[ "title" := PStr "Heat"; "rating" := PInt 15 ]} : gmap string PyVal)
    !! "rating" = Some (PInt 15)
  /\ exists errors,
       validate_movie_payload
         (PDict {[ "title" := PStr "Heat"; "rating" := PInt 15 ]}) true
       = Ok errors
       /\ is_Some (errors !! "rating").
Proof.
  assert (Hv : ({[ "title" := PStr "Heat"; "rating" := PInt 15 ]}
                  : gmap string PyVal) !! "rating" = Some (PInt 15))
    by reflexivity.
  split; [exact Hv|].
  destruct (rating_error_iff {[ "title" := PStr "Heat"; "rating" := PInt 15 ]}
              true (PInt 15) Hv) as [Hret Hiff].
  destruct Hret as [errors He];
    [exists "Heat"; reflexivity | exists ""; reflexivity
     | exists ""; reflexivity |].
  exists errors. split; [exact He|].
  apply (Hiff errors He). right. exists 15. split; [reflexivity | lia].
Defined.

Lemma require_keeps d field (errors : gmap string string) k :
  is_Some (errors !! k) -> is_Some (require d field errors !! k).
Proof.
  intros Hk. unfold require.
  destruct (d !! field) as [v|]; [destruct (PyVal_ops.str_is_blank v)|];
    rewrite ?lookup_insert_is_Some'; auto.
Qed.

Lemma require_missing d field (errors : gmap string string) :
  d !! field = None -> is_Some (require d field errors !! field).
Proof.
  intros Hn. unfold require. rewrite Hn, lookup_insert_eq. eauto.
Qed.

Lemma check_rating_keeps d (errors : gmap string string) k :
  is_Some (errors !! k) -> is_Some (check_rating d errors !! k).
Proof.
  intros Hk. unfold check_rating.
  destruct (d !! "rating") as [v|]; [|exact Hk].
  destruct (PyVal_ops.int v) as [n|e];
    [destruct ((n <? 1) || (n >? 10))|];
    rewrite ?lookup_insert_is_Some'; auto.
Qed.

(** A required field that is missing is reported. *)
Lemma validate_dict_missing d errors field :
  validate_dict d false = Ok errors ->
  field ∈ ["title"; "genre"; "rating"; "imageUrl"] ->
  d !! field = None ->
  is_Some (errors !! field).
Proof.
  unfold validate_dict.
  destruct (get_stripped d "title") as [t|]; [|discriminate].
  destruct (get_stripped d "genre") as [g|]; [|discriminate].
  destruct (get_stripped d "imageUrl") as [i|]; [|discriminate].
  cbn [bind]. intros [= <-] Hin Hn.
  apply check_rating_keeps.
  assert (Hreq : is_Some
            (require d "imageUrl"
               (require d "rating"
                  (require d "genre" (require d "title" ∅))) !! field)).
  { rewrite !elem_of_cons in Hin.
    destruct Hin as [->|[->|[->|[->|Hin]]]]; [| | | |inversion Hin];
      repeat first [ apply require_missing; exact Hn | apply require_keeps ]. }
  repeat match goal with
         | |- context [if ?b then _ else _] => destruct b
         end;
    rewrite ?lookup_insert_is_Some'; auto.
Qed.

(** ** Creating *)

(** A create request with [rating = 15] and a number as title. *)
Definition numeric_title_payload : gmap string PyVal :=
  {[ "title" := PInt 5; "genre" := PStr "Crime"; "rating" := PInt 15;
     "imageUrl" := PStr "https://img.example/heat.png" ]}.

(** C6, as stated, fails: a payload with [rating = 15] whose title is a
    number, and a body that is a list, are not answered 400: the validation
    raises [AttributeError] on [.strip()] and on [.get], and no response is
    built. *)
Lemma create_invalid_may_raise :
  numeric_title_payload !! "rating" = Some (PInt 15)
  /\ create_movie (H := binary_engine) 500 (Some (PDict numeric_title_payload))
       two_rows_db = Raise AttributeError
  /\ create_movie (H := binary_engine) 500 (Some (PList [PInt 15]))
       two_rows_db = Raise AttributeError.
Proof. repeat split; vm_compute; reflexivity. Qed.

(** C6 (amended): when the validation of a create request returns errors,
    the response is the 400 error whose [details] are those errors, one
    entry for each failing field, and the table is the one the handler was
    given: nothing is written.  The validation returns for every object
    whose title, genre and image URL are each absent, false-like or text;
    so a payload of that kind with [rating = 15] is answered 400 with
    [rating] in the details, and one that lacks a required field is
    answered 400 with that field in the details. *)
Theorem create_invalid_rejected `{Engine} (now : Z) (json : option PyVal)
    (db : Db) :
  (forall errors,
     validate_movie_payload (get_json_or_empty json) false = Ok errors ->
     errors <> ∅ ->
     create_movie now json db
     = Ok ((PDict (<["details" := PDict (PStr <$> errors)]>
                     {[ "error" := PStr "Validation failed" ]}), 400), db)
     /\ (forall d field,
           get_json_or_empty json = PDict d ->
           (field = "rating" /\ d !! "rating" = Some (PInt 15))
           \/ (field ∈ ["title"; "genre"; "rating"; "imageUrl"]
               /\ d !! field = None) ->
           is_Some (errors !! field)))
  /\ (forall d field,
        get_json_or_empty json = PDict d ->
        readable (d !! "title") -> readable (d !! "genre") ->
        readable (d !! "imageUrl") ->
        (field = "rating" /\ d !! "rating" = Some (PInt 15))
        \/ (field ∈ ["title"; "genre"; "rating"; "imageUrl"]
            /\ d !! field = None) ->
        exists errors,
          create_movie now json db
          = Ok ((PDict (<["details" := PDict (PStr <$> errors)]>
                          {[ "error" := PStr "Validation failed" ]}), 400), db)
          /\ is_Some (errors !! field)).
Proof.
  assert (Hfields : forall errors d field,
             validate_dict d false = Ok errors ->
             (field = "rating" /\ d !! "rating" = Some (PInt 15))
             \/ (field ∈ ["title"; "genre"; "rating"; "imageUrl"]
                 /\ d !! field = None) ->
             is_Some (errors !! field)).
  { intros errors d field Hval [[-> H15]|[Hin Hmiss]].
    - destruct (validate_dict_inv _ _ _ Hval) as (pre & -> & _).
      apply (check_rating_lookup d pre _ H15). right; left.
      exists 15. split; [reflexivity | lia].
    - eapply validate_dict_missing; eassumption. }
  assert (Hresp : forall errors,
             validate_movie_payload (get_json_or_empty json) false = Ok errors ->
             errors <> ∅ ->
             create_movie now json db
             = Ok ((PDict (<["details" := PDict (PStr <$> errors)]>
                             {[ "error" := PStr "Validation failed" ]}), 400),
                   db)).
  { intros errors Hval Hne. unfold create_movie. rewrite Hval. cbn [bind].
    rewrite bool_decide_eq_false_2 by exact Hne. reflexivity. }
  split.
  - intros errors Hval Hne. split; [apply Hresp; assumption|].
    intros d field Hd Hfield. rewrite Hd in Hval.
    cbn [validate_movie_payload] in Hval. eapply Hfields; eassumption.
  - intros d field Hd Ht Hg Hi Hfield.
    destruct (validate_dict_returns d false Ht Hg Hi) as [errors Hval].
    pose proof (Hfields errors d field Hval Hfield) as Hsome.
    exists errors. split; [|exact Hsome].
    apply Hresp.
    + rewrite Hd. exact Hval.
    + intros ->. rewrite lookup_empty in Hsome. destruct Hsome; discriminate.
Qed.

Lemma create_invalid_rejected_witness :
  exists errors,
    create_movie (H := binary_engine) 500 (Some (PDict rating_15_payload))
      demo_db
    = Ok ((PDict (<["details" := PDict (PStr <$> errors)]>
                    {[ "error" := PStr "Validation failed" ]}), 400),
          demo_db)
    /\ is_Some (errors !! "rating").
Proof.
  destruct (create_invalid_rejected (H := binary_engine) 500
              (Some (PDict rating_15_payload)) demo_db) as [_ Hok].
  apply (Hok rating_15_payload "rating").
  - vm_compute. reflexivity.
  - exists "Heat". reflexivity.
  - exists "Crime". reflexivity.
  - exists "https://img.example/heat.png". reflexivity.
  - left. split; reflexivity.
Defined.

(** ** Updating *)

Lemma has_key_Some (d : gmap string PyVal) field v :
  d !! field = Some v -> has_key d field = true.
Proof. intros Hv. unfold has_key. rewrite Hv. apply bool_decide_eq_true_2. eauto. Qed.

Lemma has_key_None (d : gmap string PyVal) field :
  d !! field = None -> has_key d field = false.
Proof.
  intros Hv. unfold has_key. rewrite Hv. apply bool_decide_eq_false_2.
  intros [? ?]. discriminate.
Qed.

Lemma if_insert_empty (c : bool) k x (errors : gmap string string) :
  (if c then <[k := x]> errors else errors) = ∅ -> c = false /\ errors = ∅.
Proof.
  destruct c; [|auto]. intros Hins.
  exfalso. exact (insert_non_empty _ _ _ Hins).
Qed.

Lemma check_rating_empty d (errors : gmap string string) :
  check_rating d errors = ∅ ->
  errors = ∅
  /\ forall v, d !! "rating" = Some v ->
       exists n, PyVal_ops.int v = Ok n /\ 1 <= n <= 10.
Proof.
  unfold check_rating. destruct (d !! "rating") as [v|].
  - destruct (PyVal_ops.int v) as [n|e] eqn:Hint.
    + destruct (Z.ltb_spec n 1); cbn [orb].
      * intros Hins. exfalso. exact (insert_non_empty _ _ _ Hins).
      * unfold Z.gtb. destruct (Z.compare_spec n 10); intros He;
          try (exfalso; exact (insert_non_empty _ _ _ He));
          (split; [exact He|]); intros ? [= <-]; exists n; split;
          (exact Hint || lia).
    + intros Hins. exfalso. exact (insert_non_empty _ _ _ Hins).
  - intros ->. split; [reflexivity | discriminate].
Qed.

(** A text field that is present and passes its length test is text. *)
Lemma text_field_valid d field t (k : Z) v :
  get_stripped d field = Ok t -> 1 <= k ->
  has_key d field && (PyStr.len t <? k) = false ->
  d !! field = Some v ->
  exists s, v = PStr s /\ t = PyStr.strip s.
Proof.
  intros Hget Hk Hlen Hv. rewrite (has_key_Some _ _ _ Hv) in Hlen.
  cbn [andb] in Hlen. apply Z.ltb_ge in Hlen.
  unfold get_stripped in Hget. rewrite Hv in Hget. cbn [PyVal_ops.or_else] in Hget.
  destruct (PyVal_ops.truthy v).
  - destruct v; try discriminate Hget. injection Hget as <-. eauto.
  - injection Hget as <-. change (PyStr.len (PyStr.strip "")) with 0 in Hlen. lia.
Qed.

(** What a payload that passes the partial validation holds. *)
Lemma validate_dict_valid d :
  validate_dict d true = Ok ∅ ->
  (forall v, d !! "title" = Some v -> exists s, v = PStr s)
  /\ (forall v, d !! "genre" = Some v -> exists s, v = PStr s)
  /\ (forall v, d !! "imageUrl" = Some v -> exists s, v = PStr s)
  /\ (forall v, d !! "rating" = Some v ->
        exists n, PyVal_ops.int v = Ok n /\ 1 <= n <= 10).
Proof.
  unfold validate_dict.
  destruct (get_stripped d "title") as [t|] eqn:Ht; [|discriminate].
  destruct (get_stripped d "genre") as [g|] eqn:Hg; [|discriminate].
  destruct (get_stripped d "imageUrl") as [i|] eqn:Hi; [|discriminate].
  cbn [bind]. intros [= Hfinal].
  apply check_rating_empty in Hfinal as [Hfinal Hrating].
  apply if_insert_empty in Hfinal as [Hci Hfinal].
  apply if_insert_empty in Hfinal as [Hcg Hfinal].
  apply if_insert_empty in Hfinal as [Hct _].
  repeat split; [| | |exact Hrating]; intros v Hv.
  - destruct (text_field_valid d "title" t 1 v Ht ltac:(lia) Hct Hv) as (s & -> & _).
    eauto.
  - destruct (text_field_valid d "genre" g 1 v Hg ltac:(lia) Hcg Hv) as (s & -> & _).
    eauto.
  - destruct (text_field_valid d "imageUrl" i 5 v Hi ltac:(lia) Hci Hv) as (s & -> & _).
    eauto.
Qed.

(** The record [apply_update] leaves, field by field. *)
Lemma apply_update_spec d m :
  validate_dict d true = Ok ∅ ->
  exists m',
    apply_update d m = Ok m'
    /\ Movie.id m' = Movie.id m
    /\ Movie.created_at m' = Movie.created_at m
    /\ Movie.title m'
       = match d !! "title" with
         | Some (PStr s) => PyStr.strip s
         | _ => Movie.title m
         end
    /\ Movie.genre m'
       = match d !! "genre" with
         | Some (PStr s) => PyStr.strip s
         | _ => Movie.genre m
         end
    /\ Movie.rating m'
       = match d !! "rating" with
         | Some v =>
             match PyVal_ops.int v with Ok n => n | Raise _ => Movie.rating m end
         | None => Movie.rating m
         end
    /\ Movie.image_url m'
       = match d !! "imageUrl" with
         | Some (PStr s) => PyStr.strip s
         | _ => Movie.image_url m
         end.
Proof.
  intros Hval.
  destruct (validate_dict_valid d Hval) as (Ht & Hg & Hi & Hr).
  unfold apply_update, getitem.
  destruct (d !! "title") as [vt|] eqn:Et;
    [destruct (Ht vt eq_refl) as [st ->];
     rewrite (has_key_Some _ _ _ Et) | rewrite (has_key_None _ _ Et)];
  (destruct (d !! "genre") as [vg|] eqn:Eg;
    [destruct (Hg vg eq_refl) as [sg ->];
     rewrite (has_key_Some _ _ _ Eg) | rewrite (has_key_None _ _ Eg)]);
  (destruct (d !! "imageUrl") as [vi|] eqn:Ei;
    [destruct (Hi vi eq_refl) as [si ->];
     rewrite (has_key_Some _ _ _ Ei) | rewrite (has_key_None _ _ Ei)]);
  (destruct (d !! "rating") as [vr|] eqn:Er;
    [destruct (Hr vr eq_refl) as (n & Hn & _);
     rewrite (has_key_Some _ _ _ Er) | rewrite (has_key_None _ _ Er)]);
  cbn [bind PyVal_ops.strip]; rewrite ?Hn; cbn [bind];
  eexists; (split; [reflexivity|]); cbn; repeat split; reflexivity.
Qed.

Lemma query_get_id movie_id db m :
  query_get movie_id db = Some m -> Movie.id m = movie_id.
Proof.
  unfold query_get. intros Hf. apply find_some in Hf as [_ Hid].
  apply Z.eqb_eq, Hid.
Qed.

Lemma query_get_update movie_id db m m' :
  query_get movie_id db = Some m -> Movie.id m' = movie_id ->
  query_get movie_id (db_update movie_id m' db) = Some m'.
Proof.
  unfold query_get, db_update. cbn [rows]. intros Hf Hid.
  induction (rows db) as [|x l IH]; [discriminate|].
  cbn [List.find fmap list_fmap] in *.
  destruct (Z.eqb_spec (Movie.id x) movie_id) as [Hx|Hx].
  - rewrite Hid, Z.eqb_refl. reflexivity.
  - destruct (Z.eqb_spec (Movie.id x) movie_id); [contradiction|].
    apply IH, Hf.
Qed.

Lemma db_update_other movie_id db m' (k : nat) r :
  rows db !! k = Some r -> Movie.id r <> movie_id ->
  rows (db_update movie_id m' db) !! k = Some r.
Proof.
  intros Hk Hne. unfold db_update. cbn [rows].
  rewrite list_lookup_fmap, Hk. cbn.
  destruct (Z.eqb_spec (Movie.id r) movie_id); [contradiction | reflexivity].
Qed.

(** C5: on an existing record and a payload that passes the partial
    validation, the update changes only the fields the payload supplies:
    a field the payload lacks, the id and the creation time keep their
    value, in the stored record and in the returned one; a supplied field
    takes the payload's value; the other records stay as they are. *)
Theorem update_changes_only_supplied `{Engine} (movie_id : Z)
    (json : option PyVal) (db : Db) (m : Movie.t) :
  query_get movie_id db = Some m ->
  validate_movie_payload (get_json_or_empty json) true = Ok ∅ ->
  exists d m',
    get_json_or_empty json = PDict d
    /\ update_movie movie_id json db
       = Ok ((PDict (Movie.to_dict m'), 200), db_update movie_id m' db)
    /\ query_get movie_id (db_update movie_id m' db) = Some m'
    /\ (forall (k : nat) r,
          rows db !! k = Some r -> Movie.id r <> movie_id ->
          rows (db_update movie_id m' db) !! k = Some r)
    /\ Movie.id m' = Movie.id m
    /\ Movie.created_at m' = Movie.created_at m
    /\ (d !! "title" = None -> Movie.title m' = Movie.title m)
    /\ (d !! "genre" = None -> Movie.genre m' = Movie.genre m)
    /\ (d !! "rating" = None -> Movie.rating m' = Movie.rating m)
    /\ (d !! "imageUrl" = None -> Movie.image_url m' = Movie.image_url m)
    /\ (forall field,
          d !! field = None \/ field = "id" \/ field = "createdAt" ->
          Movie.to_dict m' !! field = Movie.to_dict m !! field)
    /\ (forall s, d !! "title" = Some (PStr s) -> Movie.title m' = PyStr.strip s)
    /\ (forall s, d !! "genre" = Some (PStr s) -> Movie.genre m' = PyStr.strip s)
    /\ (forall n, d !! "rating" = Some (PInt n) -> Movie.rating m' = n)
    /\ (forall s, d !! "imageUrl" = Some (PStr s)
                  -> Movie.image_url m' = PyStr.strip s).
Proof.
  intros Hget Hval.
  destruct (get_json_or_empty json) as [| | | | | |d] eqn:Hdata;
    try discriminate Hval.
  cbn [validate_movie_payload] in Hval.
  destruct (apply_update_spec d m Hval)
    as (m' & Hupd & Hid & Hcreated & Htitle & Hgenre & Hrating & Himg).
  assert (Ht : d !! "title" = None -> Movie.title m' = Movie.title m)
    by (intros E; rewrite Htitle, E; reflexivity).
  assert (Hg : d !! "genre" = None -> Movie.genre m' = Movie.genre m)
    by (intros E; rewrite Hgenre, E; reflexivity).
  assert (Hr : d !! "rating" = None -> Movie.rating m' = Movie.rating m)
    by (intros E; rewrite Hrating, E; reflexivity).
  assert (Hi : d !! "imageUrl" = None -> Movie.image_url m' = Movie.image_url m)
    by (intros E; rewrite Himg, E; reflexivity).
  exists d, m'. split; [reflexivity|]. split.
  { unfold update_movie. rewrite Hget, Hdata.
    cbn [validate_movie_payload]. rewrite Hval. cbn [bind].
    rewrite bool_decide_eq_true_2 by reflexivity. cbn [negb].
    rewrite Hupd. reflexivity. }
  split.
  { eapply query_get_update; [exact Hget|].
    rewrite Hid. eapply query_get_id, Hget. }
  split; [intros k r; apply db_update_other|].
  do 6 (split; [assumption|]).
  split.
  { intros field Hfield. unfold Movie.to_dict.
    rewrite !lookup_insert, !lookup_singleton.
    repeat case_decide; subst; try reflexivity;
      destruct Hfield as [Hf|[Hf|Hf]]; try discriminate Hf;
      rewrite ?Hid, ?Hcreated, ?(Ht Hf), ?(Hg Hf), ?(Hr Hf), ?(Hi Hf);
      reflexivity. }
  split; [intros s E; rewrite Htitle, E; reflexivity|].
  split; [intros s E; rewrite Hgenre, E; reflexivity|].
  split; [intros n E; rewrite Hrating, E; reflexivity|].
  intros s E; rewrite Himg, E; reflexivity.
Qed.

Lemma update_changes_only_supplied_witness :
  query_get 2 two_rows_db
    = Some (Movie.mk 2 "Brazil" "Comedy" 7 "https://img.example/b.png" 200)
  /\ validate_movie_payload
       (get_json_or_empty (Some (PDict {[ "rating" := PInt 9 ]}))) true = Ok ∅
  /\ exists m',
       update_movie (H := binary_engine) 2
         (Some (PDict {[ "rating" := PInt 9 ]})) two_rows_db
       = Ok ((PDict (@Movie.to_dict binary_engine m'), 200),
             db_update 2 m' two_rows_db)
       /\ Movie.title m' = "Brazil"
       /\ Movie.genre m' = "Comedy"
       /\ Movie.image_url m' = "https://img.example/b.png"
       /\ Movie.rating m' = 9.
Proof.
  assert (Hq : query_get 2 two_rows_db
               = Some (Movie.mk 2 "Brazil" "Comedy" 7
                         "https://img.example/b.png" 200)) by reflexivity.
  assert (Hv : validate_movie_payload
                 (get_json_or_empty (Some (PDict {[ "rating" := PInt 9 ]})))
                 true = Ok ∅) by (vm_compute; reflexivity).
  split; [exact Hq|]. split; [exact Hv|].
  destruct (update_changes_only_supplied (H := binary_engine) 2
              (Some (PDict {[ "rating" := PInt 9 ]})) two_rows_db _ Hq Hv)
    as (d & m' & Hd & Hresp & _ & _ & _ & _ & Ht & Hg & _ & Hi & _ & _ & _ & Hr & _).
  assert (Hj : get_json_or_empty (Some (PDict {[ "rating" := PInt 9 ]}))
               = PDict {[ "rating" := PInt 9 ]}) by (vm_compute; reflexivity).
  rewrite Hj in Hd. injection Hd as <-. exists m'. split; [exact Hresp|].
  split; [apply Ht; reflexivity|]. split; [apply Hg; reflexivity|].
  split; [apply Hi; reflexivity|]. apply (Hr 9). reflexivity.
Defined.

(** * Further properties of the handlers *)

(** ** Trimmed text *)

Lemma rstrip_by_idem sp s :
  PyStr.rstrip_by sp (PyStr.rstrip_by sp s) = PyStr.rstrip_by sp s.
Proof.
  induction s as [|c s IH]; [reflexivity|]. cbn [PyStr.rstrip_by].
  destruct (PyStr.rstrip_by sp s) as [|d r] eqn:Hr.
  - destruct (sp c) eqn:Hc; [reflexivity|]. cbn. rewrite Hc. reflexivity.
  - cbn [PyStr.rstrip_by] in *. rewrite IH. reflexivity.
Qed.

Lemma lstrip_by_head sp s :
  PyStr.lstrip_by sp s = ""
  \/ exists c r, PyStr.lstrip_by sp s = String c r /\ sp c = false.
Proof.
  induction s as [|c s IH]; [auto|]. cbn.
  destruct (sp c) eqn:Hc; [exact IH|]. right. eauto.
Qed.

Lemma strip_idem s : PyStr.strip (PyStr.strip s) = PyStr.strip s.
Proof.
  unfold PyStr.strip.
  destruct (lstrip_by_head PyStr.is_space s) as [->|(c & r & -> & Hc)];
    [reflexivity|].
  destruct (rstrip_by_head PyStr.is_space c r) as [E|[r' E]]; rewrite E.
  - reflexivity.
  - cbn [PyStr.lstrip_by]. rewrite Hc, <- E. apply rstrip_by_idem.
Qed.

(** ** What a payload that passes validation holds *)

Lemma require_empty d field (errors : gmap string string) :
  require d field errors = ∅ -> errors = ∅ /\ is_Some (d !! field).
Proof.
  unfold require. destruct (d !! field) as [v|].
  - destruct (PyVal_ops.str_is_blank v); [|eauto].
    intros Hins. exfalso. exact (insert_non_empty _ _ _ Hins).
  - intros Hins. exfalso. exact (insert_non_empty _ _ _ Hins).
Qed.

Lemma text_field_len d field t (k : Z) v :
  get_stripped d field = Ok t -> 1 <= k ->
  has_key d field && (PyStr.len t <? k) = false ->
  d !! field = Some v ->
  exists s, v = PStr s /\ k <= PyStr.len (PyStr.strip s).
Proof.
  intros Hget Hk Hlen Hv.
  destruct (text_field_valid d field t k v Hget Hk Hlen Hv) as (s & -> & ->).
  exists s. split; [reflexivity|].
  rewrite (has_key_Some _ _ _ Hv) in Hlen. cbn [andb] in Hlen.
  apply Z.ltb_ge, Hlen.
Qed.

Lemma validate_dict_ok_inv d partial :
  validate_dict d partial = Ok ∅ ->
  (forall v, d !! "title" = Some v ->
     exists s, v = PStr s /\ 1 <= PyStr.len (PyStr.strip s))
  /\ (forall v, d !! "genre" = Some v ->
        exists s, v = PStr s /\ 1 <= PyStr.len (PyStr.strip s))
  /\ (forall v, d !! "imageUrl" = Some v ->
        exists s, v = PStr s /\ 5 <= PyStr.len (PyStr.strip s))
  /\ (forall v, d !! "rating" = Some v ->
        exists n, PyVal_ops.int v = Ok n /\ 1 <= n <= 10)
  /\ (partial = false ->
      is_Some (d !! "title") /\ is_Some (d !! "genre")
      /\ is_Some (d !! "rating") /\ is_Some (d !! "imageUrl")).
Proof.
  unfold validate_dict.
  destruct (get_stripped d "title") as [t|] eqn:Ht; [|discriminate].
  destruct (get_stripped d "genre") as [g|] eqn:Hg; [|discriminate].
  destruct (get_stripped d "imageUrl") as [i|] eqn:Hi; [|discriminate].
  cbn [bind]. intros [= Hfinal].
  apply check_rating_empty in Hfinal as [Hfinal Hrating].
  apply if_insert_empty in Hfinal as [Hci Hfinal].
  apply if_insert_empty in Hfinal as [Hcg Hfinal].
  apply if_insert_empty in Hfinal as [Hct Hreq].
  split; [intros v Hv; exact (text_field_len d "title" t 1 v Ht ltac:(lia) Hct Hv)|].
  split; [intros v Hv; exact (text_field_len d "genre" g 1 v Hg ltac:(lia) Hcg Hv)|].
  split; [intros v Hv;
          exact (text_field_len d "imageUrl" i 5 v Hi ltac:(lia) Hci Hv)|].
  split; [exact Hrating|].
  intros ->.
  apply require_empty in Hreq as [Hreq Hpi].
  apply require_empty in Hreq as [Hreq Hpr].
  apply require_empty in Hreq as [Hreq Hpg].
  apply require_empty in Hreq as [_ Hpt].
  auto.
Qed.

(** ** Creating a record *)

(** The success path of [create_movie], with the payload it read. *)
Lemma create_movie_ok `{Engine} (now : Z) (json : option PyVal) (db : Db) :
  validate_movie_payload (get_json_or_empty json) false = Ok ∅ ->
  exists d st sg si vr m,
    get_json_or_empty json = PDict d
    /\ d !! "title" = Some (PStr st) /\ d !! "genre" = Some (PStr sg)
    /\ d !! "imageUrl" = Some (PStr si) /\ d !! "rating" = Some vr
    /\ PyVal_ops.int vr = Ok (Movie.rating m)
    /\ m = Movie.mk (next_id db) (PyStr.strip st) (PyStr.strip sg)
             (Movie.rating m) (PyStr.strip si) now
    /\ create_movie now json db
       = Ok ((PDict (Movie.to_dict m), 201),
             {| rows := rows db ++ [m]; next_id := next_id db + 1 |})
    /\ movie_valid m.
Proof.
  intros Hval.
  destruct (get_json_or_empty json) as [| | | | | |d] eqn:Hdata;
    try discriminate Hval.
  cbn [validate_movie_payload] in Hval.
  destruct (validate_dict_ok_inv d false Hval) as (Ht & Hg & Hi & Hr & Hp).
  destruct (Hp eq_refl) as ([vt Evt] & [vg Evg] & [vr Evr] & [vi Evi]).
  destruct (Ht vt Evt) as (st & -> & Hlt).
  destruct (Hg vg Evg) as (sg & -> & Hlg).
  destruct (Hi vi Evi) as (si & -> & Hli).
  destruct (Hr vr Evr) as (n & Hn & Hrange).
  exists d, st, sg, si, vr,
    (Movie.mk (next_id db) (PyStr.strip st) (PyStr.strip sg) n
       (PyStr.strip si) now).
  split; [reflexivity|]. do 4 (split; [assumption|]).
  split; [exact Hn|]. split; [reflexivity|]. split.
  - unfold create_movie. rewrite Hdata. cbn [validate_movie_payload].
    rewrite Hval. cbn [bind].
    rewrite bool_decide_eq_true_2 by reflexivity. cbn [negb].
    unfold getitem. rewrite Evt, Evg, Evr, Evi. cbn [bind PyVal_ops.strip].
    rewrite Hn. reflexivity.
  - unfold movie_valid.
    cbn [Movie.rating Movie.title Movie.genre Movie.image_url].
    rewrite !strip_idem. auto 10.
Qed.

(** X1: a create request whose payload passes the full validation answers
    201 with the new record and appends it to the table: its id is the next
    free id, its creation time the clock reading, its text fields the
    trimmed payload text and its rating the converted payload value; the
    record satisfies the constraints of the data model. *)
Theorem create_valid_persists `{Engine} (now : Z) (json : option PyVal)
    (db : Db) :
  validate_movie_payload (get_json_or_empty json) false = Ok ∅ ->
  exists m,
    create_movie now json db
    = Ok ((PDict (Movie.to_dict m), 201),
          {| rows := rows db ++ [m]; next_id := next_id db + 1 |})
    /\ Movie.id m = next_id db
    /\ Movie.created_at m = now
    /\ movie_valid m
    /\ exists d st sg si vr,
         get_json_or_empty json = PDict d
         /\ d !! "title" = Some (PStr st) /\ Movie.title m = PyStr.strip st
         /\ d !! "genre" = Some (PStr sg) /\ Movie.genre m = PyStr.strip sg
         /\ d !! "imageUrl" = Some (PStr si)
         /\ Movie.image_url m = PyStr.strip si
         /\ d !! "rating" = Some vr /\ PyVal_ops.int vr = Ok (Movie.rating m).
Proof.
  intros Hval.
  destruct (create_movie_ok now json db Hval)
    as (d & st & sg & si & vr & m & Hd & Et & Eg & Ei & Er & Hn & Hm & Hresp
        & Hvalid).
  exists m. split; [exact Hresp|].
  split; [rewrite Hm; reflexivity|]. split; [rewrite Hm; reflexivity|].
  split; [exact Hvalid|].
  exists d, st, sg, si, vr. split; [exact Hd|].
  split; [exact Et|]. split; [rewrite Hm; reflexivity|].
  split; [exact Eg|]. split; [rewrite Hm; reflexivity|].
  split; [exact Ei|]. split; [rewrite Hm; reflexivity|].
  split; [exact Er | exact Hn].
Qed.

Lemma create_valid_persists_witness :
  exists m,
    create_movie (H := binary_engine) 500
      (Some (PDict {[ "title" := PStr "  Heat "; "genre" := PStr "Crime";
                      "rating" := PStr "8";
                      "imageUrl" := PStr "https://img.example/heat.png" ]}))
      two_rows_db
    = Ok ((PDict (@Movie.to_dict binary_engine m), 201),
          {| rows := rows two_rows_db ++ [m]; next_id := 4 |})
    /\ Movie.id m = 3
    /\ Movie.created_at m = 500
    /\ movie_valid m.
Proof.
  assert (Hv : validate_movie_payload
                 (get_json_or_empty
                    (Some (PDict {[ "title" := PStr "  Heat ";
                                    "genre" := PStr "Crime";
                                    "rating" := PStr "8";
                                    "imageUrl" := PStr "https://img.example/heat.png" ]})))
                 false = Ok ∅) by (vm_compute; reflexivity).
  destruct (create_valid_persists (H := binary_engine) 500 _ two_rows_db Hv)
    as (m & Hresp & Hid & Hcr & Hvalid & _).
  exists m. split; [exact Hresp|]. auto.
Defined.

(** ** Looking records up *)

Lemma query_get_In movie_id db m :
  query_get movie_id db = Some m -> In m (rows db) /\ Movie.id m = movie_id.
Proof.
  unfold query_get. intros Hf. apply find_some in Hf as [Hin Hid].
  split; [exact Hin | apply Z.eqb_eq, Hid].
Qed.

Lemma query_get_None movie_id db :
  query_get movie_id db = None <->
  forall m, In m (rows db) -> Movie.id m <> movie_id.
Proof.
  unfold query_get. split.
  - intros Hf m Hin Hid.
    pose proof (find_none _ _ Hf m Hin) as Hne. cbn in Hne.
    apply Z.eqb_neq in Hne. contradiction.
  - intros Hall. induction (rows db) as [|x l IH]; [reflexivity|].
    cbn [List.find]. destruct (Z.eqb_spec (Movie.id x) movie_id) as [Hx|Hx].
    + exfalso. apply (Hall x); [left; reflexivity | exact Hx].
    + apply IH. intros m Hin. apply Hall. right. exact Hin.
Qed.

Lemma find_id_unique (l : list Movie.t) m :
  NoDup (Movie.id <$> l) -> In m l ->
  List.find (fun r => Movie.id r =? Movie.id m) l = Some m.
Proof.
  induction l as [|x l IH]; intros Hnd Hin; [destruct Hin|].
  cbn [fmap list_fmap] in Hnd. apply NoDup_cons in Hnd as [Hx Hnd].
  cbn [List.find]. destruct Hin as [->|Hin].
  - rewrite Z.eqb_refl. reflexivity.
  - destruct (Z.eqb_spec (Movie.id x) (Movie.id m)) as [Heq|Hne].
    + exfalso. apply Hx. rewrite Heq. apply list_elem_of_fmap.
      exists m. split; [reflexivity | apply list_elem_of_In, Hin].
    + apply IH; assumption.
Qed.

(** Under unique ids a record is found by its id. *)
Lemma query_get_unique db m :
  db_wf db -> In m (rows db) -> query_get (Movie.id m) db = Some m.
Proof. intros [Hnd _] Hin. apply find_id_unique; assumption. Qed.

Lemma db_wf_fresh db :
  db_wf db -> query_get (next_id db) db = None.
Proof.
  intros [_ Hlt]. apply query_get_None. intros m Hin Hid.
  rewrite Forall_forall in Hlt. specialize (Hlt m (proj2 (list_elem_of_In _ _) Hin)).
  cbn in Hlt. lia.
Qed.

Lemma db_add_wf now t g r img db :
  db_wf db -> db_wf (snd (db_add now t g r img db)).
Proof.
  intros [Hnd Hlt]. unfold db_add, db_wf. cbn [snd rows next_id]. split.
  - rewrite fmap_app. cbn [fmap list_fmap Movie.id].
    apply NoDup_app. split; [exact Hnd|]. split; [|apply NoDup_singleton].
    intros x Hx Hx'. apply list_elem_of_singleton in Hx'. subst x.
    apply list_elem_of_fmap in Hx as (m & Hm & Hin).
    rewrite Forall_forall in Hlt. specialize (Hlt m Hin). cbn in Hlt. lia.
  - apply Forall_app. split.
    + eapply Forall_impl; [exact Hlt|]. cbn. intros; lia.
    + constructor; [cbn; lia | constructor].
Qed.

Lemma add_all_seeded_wf clock idxs db :
  db_wf db -> db_wf (add_all_seeded clock idxs db).
Proof.
  revert db. induction idxs as [|i idxs IH]; intros db Hwf; [exact Hwf|].
  unfold add_all_seeded in *. cbn [foldl]. apply IH.
  destruct (seed_columns i) as [[[t g] r] img]. apply db_add_wf, Hwf.
Qed.

Lemma query_get_app_fresh movie_id db m :
  query_get movie_id {| rows := rows db ++ [m]; next_id := next_id db + 1 |}
  = match query_get movie_id db with
    | Some r => Some r
    | None => if Movie.id m =? movie_id then Some m else None
    end.
Proof.
  unfold query_get. cbn [rows].
  induction (rows db) as [|x l IH]; [reflexivity|].
  cbn [app List.find]. destruct (Movie.id x =? movie_id); [reflexivity|exact IH].
Qed.

(** X2: on a table with unique ids, the record a valid create request
    stores gets an id no record had before, is the one [get_movie] then
    returns under that id, and leaves every other lookup as it was. *)
Theorem create_then_get `{Engine} (now : Z) (json : option PyVal) (db : Db) :
  db_wf db ->
  validate_movie_payload (get_json_or_empty json) false = Ok ∅ ->
  exists m db',
    create_movie now json db = Ok ((PDict (Movie.to_dict m), 201), db')
    /\ query_get (Movie.id m) db = None
    /\ get_movie (Movie.id m) db' = (PDict (Movie.to_dict m), 200)
    /\ (forall movie_id,
          movie_id <> Movie.id m ->
          get_movie movie_id db' = get_movie movie_id db)
    /\ db_count db' = db_count db + 1
    /\ db_wf db'.
Proof.
  intros Hwf Hval.
  destruct (create_movie_ok now json db Hval)
    as (d & st & sg & si & vr & m & _ & _ & _ & _ & _ & _ & Hm & Hresp & _).
  assert (Hid : Movie.id m = next_id db) by (rewrite Hm; reflexivity).
  exists m, {| rows := rows db ++ [m]; next_id := next_id db + 1 |}.
  split; [exact Hresp|].
  split; [rewrite Hid; apply db_wf_fresh, Hwf|].
  split.
  { unfold get_movie. rewrite query_get_app_fresh.
    rewrite Hid at 1. rewrite (db_wf_fresh db Hwf), Hid, Z.eqb_refl.
    reflexivity. }
  split.
  { intros movie_id Hne. unfold get_movie. rewrite query_get_app_fresh.
    destruct (query_get movie_id db); [reflexivity|].
    destruct (Z.eqb_spec (Movie.id m) movie_id); [congruence | reflexivity]. }
  split.
  { unfold db_count. cbn [rows]. rewrite length_app. cbn [length]. lia. }
  pose proof (db_add_wf now (Movie.title m) (Movie.genre m) (Movie.rating m)
                (Movie.image_url m) db Hwf) as Hwf'.
  unfold db_add in Hwf'. cbn [snd] in Hwf'.
  replace (Movie.mk (next_id db) (Movie.title m) (Movie.genre m)
             (Movie.rating m) (Movie.image_url m) now) with m in Hwf'.
  - exact Hwf'.
  - rewrite Hm at 1. rewrite Hm. reflexivity.
Qed.

(** A table with unique ids to evaluate on, and a payload that passes. *)
Lemma two_rows_db_wf : db_wf two_rows_db.
Proof.
  split.
  - cbn. apply NoDup_cons. split; [|apply NoDup_singleton].
    rewrite list_elem_of_singleton. discriminate.
  - repeat constructor; cbn; lia.
Qed.

Lemma create_then_get_witness :
  exists m db',
    create_movie (H := binary_engine) 500
      (Some (PDict {[ "title" := PStr "Heat"; "genre" := PStr "Crime";
                      "rating" := PInt 8;
                      "imageUrl" := PStr "https://img.example/heat.png" ]}))
      two_rows_db
    = Ok ((PDict (@Movie.to_dict binary_engine m), 201), db')
    /\ get_movie (H := binary_engine) (Movie.id m) db'
       = (PDict (@Movie.to_dict binary_engine m), 200)
    /\ db_count db' = 3.
Proof.
  assert (Hv : validate_movie_payload
                 (get_json_or_empty
                    (Some (PDict {[ "title" := PStr "Heat";
                                    "genre" := PStr "Crime";
                                    "rating" := PInt 8;
                                    "imageUrl" := PStr "https://img.example/heat.png" ]})))
                 false = Ok ∅) by (vm_compute; reflexivity).
  destruct (create_then_get (H := binary_engine) 500 _ two_rows_db
              two_rows_db_wf Hv)
    as (m & db' & Hresp & _ & Hget & _ & Hcount & _).
  exists m, db'. split; [exact Hresp|]. split; [exact Hget|].
  rewrite Hcount. reflexivity.
Defined.

(** ** More on validation *)

Lemma get_stripped_text d field s :
  d !! field = Some (PStr s) -> get_stripped d field = Ok (PyStr.strip s).
Proof.
  intros Hv. unfold get_stripped. rewrite Hv. cbn.
  destruct (String.eqb_spec s "") as [->|_]; reflexivity.
Qed.

Lemma len_strip_blank s k :
  1 <= k -> k <= PyStr.len (PyStr.strip s) ->
  String.eqb (PyStr.strip s) "" = false.
Proof.
  intros Hk Hlen. destruct (String.eqb_spec (PyStr.strip s) "") as [E|_];
    [|reflexivity].
  rewrite E in Hlen. change (PyStr.len "") with 0 in Hlen. lia.
Qed.

(** X3: for a payload whose three text fields are text and whose rating is
    an integer, the full validation passes exactly when the trimmed title
    and genre are not empty, the trimmed image URL has 5 characters or more
    and the rating lies within 1 and 10. *)
Theorem validate_typed_payload (d : gmap string PyVal) (st sg si : string)
    (n : Z) :
  d !! "title" = Some (PStr st) -> d !! "genre" = Some (PStr sg) ->
  d !! "imageUrl" = Some (PStr si) -> d !! "rating" = Some (PInt n) ->
  (validate_movie_payload (PDict d) false = Ok ∅
   <-> 1 <= PyStr.len (PyStr.strip st) /\ 1 <= PyStr.len (PyStr.strip sg)
       /\ 5 <= PyStr.len (PyStr.strip si) /\ 1 <= n <= 10).
Proof.
  intros Et Eg Ei Er. cbn [validate_movie_payload]. split.
  - intros Hval.
    destruct (validate_dict_ok_inv d false Hval) as (Ht & Hg & Hi & Hr & _).
    destruct (Ht _ Et) as (? & [= <-] & Hlt).
    destruct (Hg _ Eg) as (? & [= <-] & Hlg).
    destruct (Hi _ Ei) as (? & [= <-] & Hli).
    destruct (Hr _ Er) as (? & [= <-] & Hrange). auto.
  - intros (Hlt & Hlg & Hli & Hrange). unfold validate_dict, require.
    rewrite (get_stripped_text _ _ _ Et), (get_stripped_text _ _ _ Eg),
      (get_stripped_text _ _ _ Ei).
    rewrite Et, Eg, Ei, Er. cbn [PyVal_ops.str_is_blank bind].
    rewrite (len_strip_blank st 1), (len_strip_blank sg 1),
      (len_strip_blank si 5) by lia.
    rewrite (proj2 (Z.ltb_ge _ _) Hlt), (proj2 (Z.ltb_ge _ _) Hlg),
      (proj2 (Z.ltb_ge _ _) Hli), !andb_false_r.
    unfold check_rating. rewrite Er. cbn [PyVal_ops.int].
    destruct (Z.ltb_spec n 1); [lia|]. unfold Z.gtb.
    destruct (Z.compare_spec n 10); try reflexivity. lia.
Qed.

Lemma validate_typed_payload_witness :
  validate_movie_payload
    (PDict {[ "title" := PStr " Heat "; "genre" := PStr "Crime";
              "imageUrl" := PStr "https://img.example/heat.png";
              "rating" := PInt 8 ]}) false = Ok ∅.
Proof.
  apply (validate_typed_payload _ " Heat " "Crime"
           "https://img.example/heat.png" 8); try reflexivity.
  repeat split; vm_compute; discriminate.
Defined.

Lemma require_lookup_is_Some d field (errors : gmap string string) k :
  is_Some (require d field errors !! k) -> k = field \/ is_Some (errors !! k).
Proof.
  unfold require.
  destruct (d !! field) as [v|]; [destruct (PyVal_ops.str_is_blank v)|];
    rewrite ?lookup_insert_is_Some'; intuition.
Qed.

Lemma check_rating_lookup_is_Some d (errors : gmap string string) k :
  is_Some (check_rating d errors !! k) -> k = "rating" \/ is_Some (errors !! k).
Proof.
  unfold check_rating.
  destruct (d !! "rating") as [v|]; [|auto].
  destruct (PyVal_ops.int v) as [n|e];
    [destruct ((n <? 1) || (n >? 10))|];
    rewrite ?lookup_insert_is_Some'; intuition.
Qed.

(** X4: the errors of a validation are about the four fields of a record
    only: whatever other keys a payload carries, none of them is
    reported. *)
Theorem validation_reports_fields_only (data : PyVal) (partial : bool)
    (errors : gmap string string) (k : string) :
  validate_movie_payload data partial = Ok errors ->
  is_Some (errors !! k) ->
  k ∈ payload_fields.
Proof.
  intros Hval Hk.
  assert (Hd : exists d, data = PDict d /\ validate_dict d partial = Ok errors).
  { destruct data; cbn in Hval; try discriminate;
      try (destruct partial; discriminate). eauto. }
  destruct Hd as (d & -> & Hv). clear Hval. unfold validate_dict in Hv.
  destruct (get_stripped d "title") as [t|]; [|discriminate].
  destruct (get_stripped d "genre") as [g|]; [|discriminate].
  destruct (get_stripped d "imageUrl") as [i|]; [|discriminate].
  cbn [bind] in Hv. injection Hv as <-.
  unfold payload_fields. rewrite !elem_of_cons.
  apply check_rating_lookup_is_Some in Hk as [->|Hk]; [auto|].
  repeat match type of Hk with
         | context [if ?b then _ else _] => destruct b
         end;
    repeat first
      [ apply lookup_insert_is_Some' in Hk as [<-|Hk]; [auto 6|]
      | apply require_lookup_is_Some in Hk as [->|Hk]; [auto 6|] ];
    rewrite lookup_empty in Hk; destruct Hk; discriminate.
Qed.

Lemma validation_reports_fields_only_witness :
  "rating" ∈ payload_fields.
Proof.
  apply (validation_reports_fields_only
           (PDict {[ "rating" := PInt 15; "year" := PInt 1995 ]}) true
           {[ "rating" := "Rating must be 1â€“10" ]} "rating").
  - vm_compute. reflexivity.
  - rewrite lookup_singleton_eq. eauto.
Defined.

(** What [require] leaves under its own field. *)
Lemma require_lookup_self d field (errors : gmap string string) :
  require d field errors !! field
  = match d !! field with
    | None => Some "Required"
    | Some v =>
        if PyVal_ops.str_is_blank v then Some "Required" else errors !! field
    end.
Proof.
  unfold require. destruct (d !! field) as [v|];
    [destruct (PyVal_ops.str_is_blank v)|];
    rewrite ?lookup_insert_eq; reflexivity.
Qed.

(** The errors of the four [require] calls, read under one of the fields. *)
Lemma require_chain_lookup d field :
  field ∈ payload_fields ->
  require d "imageUrl"
    (require d "rating" (require d "genre" (require d "title" ∅))) !! field
  = match d !! field with
    | None => Some "Required"
    | Some v => if PyVal_ops.str_is_blank v then Some "Required" else None
    end.
Proof.
  unfold payload_fields. rewrite !elem_of_cons.
  intros [->|[->|[->|[->|Hin]]]]; [| | | |inversion Hin];
    rewrite ?require_lookup_ne by discriminate;
    rewrite require_lookup_self;
    rewrite ?require_lookup_ne by discriminate;
    rewrite ?lookup_empty; reflexivity.
Qed.

(** A later check that writes under a field replaces what was there. *)
Lemma overwrite_lookup (c : bool) k x (errors : gmap string string) field :
  (if c then <[k := x]> errors else errors) !! field
  = if c && bool_decide (k = field) then Some x else errors !! field.
Proof.
  destruct c; [|reflexivity]. cbn [andb]. rewrite lookup_insert.
  destruct (decide (k = field)) as [->|Hne].
  - rewrite bool_decide_eq_true_2 by reflexivity. reflexivity.
  - rewrite bool_decide_eq_false_2 by exact Hne. reflexivity.
Qed.

Lemma check_rating_other d (errors : gmap string string) field :
  field <> "rating" -> check_rating d errors !! field = errors !! field.
Proof.
  intros Hne. unfold check_rating.
  destruct (d !! "rating") as [v|]; [|reflexivity].
  destruct (PyVal_ops.int v) as [n|e];
    [destruct ((n <? 1) || (n >? 10))|];
    rewrite ?lookup_insert_ne by congruence; reflexivity.
Qed.

Lemma blank_stripped d field v t :
  d !! field = Some v -> PyVal_ops.str_is_blank v = true ->
  get_stripped d field = Ok t -> t = "".
Proof.
  intros Hv Hb. destruct v; try discriminate Hb. cbn in Hb.
  apply String.eqb_eq in Hb. rewrite (get_stripped_text _ _ _ Hv).
  intros [= <-]. exact Hb.
Qed.

(** Deciding the equalities between the names of fields. *)
Ltac decide_keys :=
  repeat match goal with
         | |- context [bool_decide (?a = ?b)] =>
             first [ rewrite (bool_decide_eq_true_2 (a = b)) by reflexivity
                   | rewrite (bool_decide_eq_false_2 (a = b)) by discriminate ]
         end.

(** X5: in the full validation a field is reported as [Required] exactly
    when the payload has no such key; a key that is present with a blank
    or unusable value gets the message of its own check instead. *)
Theorem required_iff_missing (d : gmap string PyVal)
    (errors : gmap string string) (field : string) :
  validate_movie_payload (PDict d) false = Ok errors ->
  field ∈ payload_fields ->
  (errors !! field = Some "Required" <-> d !! field = None).
Proof.
  cbn [validate_movie_payload]. unfold validate_dict.
  destruct (get_stripped d "title") as [t|] eqn:Ht; [|discriminate].
  destruct (get_stripped d "genre") as [g|] eqn:Hg; [|discriminate].
  destruct (get_stripped d "imageUrl") as [i|] eqn:Hi; [|discriminate].
  cbn [bind]. intros [= <-] Hin.
  pose proof (require_chain_lookup d field Hin) as Hreq.
  unfold payload_fields in Hin. rewrite !elem_of_cons in Hin.
  destruct Hin as [->|[->|[->|[->|Hin]]]]; [| | | |inversion Hin].
  - rewrite check_rating_other, !overwrite_lookup, Hreq by discriminate.
    decide_keys. rewrite ?andb_false_r, ?andb_true_r.
    destruct (d !! "title") as [v|] eqn:Hv.
    + rewrite (has_key_Some _ _ _ Hv). cbn [andb].
      destruct (PyVal_ops.str_is_blank v) eqn:Hb.
      * rewrite (blank_stripped _ _ _ _ Hv Hb Ht).
        change (PyStr.len "" <? 1) with true. split; discriminate.
      * destruct (PyStr.len t <? 1); split; discriminate.
    + rewrite (has_key_None _ _ Hv). cbn [andb]. split; reflexivity.
  - rewrite check_rating_other, !overwrite_lookup, Hreq by discriminate.
    decide_keys. rewrite ?andb_false_r, ?andb_true_r.
    destruct (d !! "genre") as [v|] eqn:Hv.
    + rewrite (has_key_Some _ _ _ Hv). cbn [andb].
      destruct (PyVal_ops.str_is_blank v) eqn:Hb.
      * rewrite (blank_stripped _ _ _ _ Hv Hb Hg).
        change (PyStr.len "" <? 1) with true. split; discriminate.
      * destruct (PyStr.len g <? 1); split; discriminate.
    + rewrite (has_key_None _ _ Hv). cbn [andb]. split; reflexivity.
  - unfold check_rating.
    destruct (d !! "rating") as [v|] eqn:Hv.
    + destruct (PyVal_ops.int v) as [n|e] eqn:Hint.
      * destruct ((n <? 1) || (n >? 10));
          [rewrite lookup_insert_eq; split; discriminate|].
        rewrite !overwrite_lookup, Hreq.
        decide_keys. rewrite ?andb_false_r.
        destruct (PyVal_ops.str_is_blank v) eqn:Hb; [|split; discriminate].
        destruct (blank_int_raises v Hb) as [e He]. congruence.
      * rewrite lookup_insert_eq. split; discriminate.
    + rewrite !overwrite_lookup, Hreq.
      decide_keys. rewrite ?andb_false_r. split; reflexivity.
  - rewrite check_rating_other, !overwrite_lookup, Hreq by discriminate.
    decide_keys. rewrite ?andb_false_r, ?andb_true_r.
    destruct (d !! "imageUrl") as [v|] eqn:Hv.
    + rewrite (has_key_Some _ _ _ Hv). cbn [andb].
      destruct (PyVal_ops.str_is_blank v) eqn:Hb.
      * rewrite (blank_stripped _ _ _ _ Hv Hb Hi).
        change (PyStr.len "" <? 5) with true. split; discriminate.
      * destruct (PyStr.len i <? 5); split; discriminate.
    + rewrite (has_key_None _ _ Hv). cbn [andb]. split; reflexivity.
Qed.

Lemma required_iff_missing_witness :
  exists errors,
    validate_movie_payload
      (PDict {[ "title" := PStr "  "; "genre" := PStr "Crime" ]}) false
    = Ok errors
    /\ errors !! "rating" = Some "Required"
    /\ errors !! "title" <> Some "Required".
Proof.
  assert (Hv : validate_movie_payload
                 (PDict {[ "title" := PStr "  "; "genre" := PStr "Crime" ]})
                 false
               = Ok {[ "title" := "Title cannot be empty";
                       "rating" := "Required"; "imageUrl" := "Required" ]})
    by (vm_compute; reflexivity).
  eexists. split; [exact Hv|]. split.
  - apply (required_iff_missing _ _ "rating" Hv).
    + unfold payload_fields. rewrite !elem_of_cons. auto.
    + reflexivity.
  - intros Hreq.
    apply (required_iff_missing _ _ "title" Hv) in Hreq.
    + discriminate Hreq.
    + unfold payload_fields. rewrite !elem_of_cons. auto.
Defined.

(** X6: a create request without a usable body (no JSON, or JSON that
    Python takes for false: [null], [false], [0], an empty text, list or
    object) is validated as the empty payload: the answer is the 400 error
    that reports all four fields as [Required], and nothing is written. *)
Theorem create_empty_body `{Engine} (now : Z) (json : option PyVal) (db : Db) :
  json = None \/ (exists v, json = Some v /\ PyVal_ops.truthy v = false) ->
  create_movie now json db
  = Ok (json_error "Validation failed" 400
          (Some {[ "title" := "Required"; "genre" := "Required";
                   "rating" := "Required"; "imageUrl" := "Required" ]}), db).
Proof.
  intros Hjson.
  assert (Hdata : get_json_or_empty json = PDict ∅).
  { destruct Hjson as [->|(v & -> & Hv)]; [reflexivity|].
    unfold get_json_or_empty, PyVal_ops.or_else. rewrite Hv. reflexivity. }
  assert (Hval : validate_movie_payload (PDict ∅) false
                 = Ok {[ "title" := "Required"; "genre" := "Required";
                         "rating" := "Required"; "imageUrl" := "Required" ]})
    by (vm_compute; reflexivity).
  unfold create_movie. rewrite Hdata, Hval. cbn [bind].
  rewrite bool_decide_eq_false_2 by apply insert_non_empty. reflexivity.
Qed.

Lemma create_empty_body_witness :
  create_movie (H := binary_engine) 500 (Some (PList [])) two_rows_db
  = Ok (json_error "Validation failed" 400
          (Some {[ "title" := "Required"; "genre" := "Required";
                   "rating" := "Required"; "imageUrl" := "Required" ]}),
        two_rows_db).
Proof.
  apply (create_empty_body (H := binary_engine)).
  right. exists (PList []). split; reflexivity.
Defined.

(** ** Deleting a record *)

Lemma query_get_filter movie_id other db (n : Z) :
  query_get other
    {| rows := List.filter (fun r => negb (Movie.id r =? movie_id)) (rows db);
       next_id := n |}
  = if other =? movie_id then None else query_get other db.
Proof.
  unfold query_get. cbn [rows].
  induction (rows db) as [|x l IH].
  - cbn. destruct (other =? movie_id); reflexivity.
  - cbn [List.filter List.find].
    destruct (Z.eqb_spec (Movie.id x) movie_id) as [Hx|Hx]; cbn [negb].
    + rewrite IH. destruct (Z.eqb_spec other movie_id) as [Ho|Ho];
        [reflexivity|].
      destruct (Z.eqb_spec (Movie.id x) other); [congruence | reflexivity].
    + cbn [List.find]. destruct (Z.eqb_spec (Movie.id x) other) as [Hxo|Hxo].
      * destruct (Z.eqb_spec other movie_id); [congruence | reflexivity].
      * exact IH.
Qed.

(** X7: deleting a record that is in the table answers 200 with status
    [deleted]; the table then holds the records with another id, in their
    order, so right after the delete [get_movie] answers 404 for the
    deleted id and as before for every other id.  (Which id the engine
    hands out next is the engine's affair.) *)
Theorem delete_then_get `{Engine} (movie_id : Z) (db : Db) (m : Movie.t) :
  query_get movie_id db = Some m ->
  exists db',
    delete_movie movie_id db
    = ((PDict {[ "status" := PStr "deleted" ]}, 200), db')
    /\ rows db'
       = List.filter (fun r => negb (Movie.id r =? movie_id)) (rows db)
    /\ get_movie movie_id db' = json_error "Movie not found" 404 None
    /\ (forall other, other <> movie_id ->
          get_movie other db' = get_movie other db).
Proof.
  intros Hm. eexists.
  split; [unfold delete_movie; rewrite Hm; reflexivity|].
  split; [reflexivity|]. split.
  - unfold get_movie. rewrite query_get_filter, Z.eqb_refl. reflexivity.
  - intros other Hne. unfold get_movie. rewrite query_get_filter.
    destruct (Z.eqb_spec other movie_id); [contradiction | reflexivity].
Qed.

Lemma delete_then_get_witness :
  exists db',
    delete_movie (H := binary_engine) 2 two_rows_db
    = ((PDict {[ "status" := PStr "deleted" ]}, 200), db')
    /\ get_movie (H := binary_engine) 2 db'
       = json_error "Movie not found" 404 None
    /\ get_movie (H := binary_engine) 1 db'
       = get_movie (H := binary_engine) 1 two_rows_db.
Proof.
  destruct (delete_then_get (H := binary_engine) 2 two_rows_db
              (Movie.mk 2 "Brazil" "Comedy" 7 "https://img.example/b.png" 200)
              eq_refl) as (db' & Hresp & _ & Hgone & Hother).
  exists db'. split; [exact Hresp|]. split; [exact Hgone|].
  apply Hother. discriminate.
Defined.

Lemma filter_id_absent movie_id (l : list Movie.t) :
  (forall r, In r l -> Movie.id r <> movie_id) ->
  List.filter (fun r => negb (Movie.id r =? movie_id)) l = l.
Proof.
  induction l as [|x l IH]; intros Hall; [reflexivity|]. cbn [List.filter].
  destruct (Z.eqb_spec (Movie.id x) movie_id) as [Hx|Hx].
  - exfalso. apply (Hall x); [left; reflexivity | exact Hx].
  - cbn [negb]. f_equal. apply IH. intros r Hr. apply Hall. right. exact Hr.
Qed.

Lemma filter_id_length movie_id (l : list Movie.t) m :
  NoDup (Movie.id <$> l) ->
  List.find (fun r => Movie.id r =? movie_id) l = Some m ->
  S (length (List.filter (fun r => negb (Movie.id r =? movie_id)) l))
  = length l.
Proof.
  induction l as [|x l IH]; intros Hnd Hf; [discriminate|].
  cbn [fmap list_fmap] in Hnd. apply NoDup_cons in Hnd as [Hx Hnd].
  cbn [List.find List.filter] in *.
  destruct (Z.eqb_spec (Movie.id x) movie_id) as [Heq|Hne]; cbn [negb length].
  - rewrite filter_id_absent; [reflexivity|].
    intros r Hr Hid. apply Hx. rewrite Heq, <- Hid.
    apply list_elem_of_fmap. exists r.
    split; [reflexivity | apply list_elem_of_In, Hr].
  - f_equal. apply IH; assumption.
Qed.

Lemma filter_keeps_NoDup (p : Movie.t -> bool) (l : list Movie.t) :
  NoDup (Movie.id <$> l) -> NoDup (Movie.id <$> List.filter p l).
Proof.
  induction l as [|x l IH]; intros Hnd; [exact Hnd|].
  cbn [fmap list_fmap] in Hnd. apply NoDup_cons in Hnd as [Hx Hnd].
  cbn [List.filter]. destruct (p x); [|apply IH, Hnd].
  cbn [fmap list_fmap]. apply NoDup_cons. split; [|apply IH, Hnd].
  intros Hin. apply Hx. apply list_elem_of_fmap in Hin as (r & Hr & Hin).
  apply list_elem_of_fmap. exists r. split; [exact Hr|].
  apply list_elem_of_In. apply list_elem_of_In in Hin.
  apply filter_In in Hin. tauto.
Qed.

(** The table a delete leaves keeps its ids apart and below the id the
    engine hands out next, whichever that is. *)
Lemma filter_keeps_wf `{Engine} (p : Movie.t -> bool) db :
  db_wf db ->
  db_wf {| rows := List.filter p (rows db);
           next_id :=
             next_id_after_delete (Movie.id <$> List.filter p (rows db))
               (next_id db) |}.
Proof.
  intros [Hnd Hlt]. unfold db_wf. cbn [rows next_id]. split.
  - apply filter_keeps_NoDup, Hnd.
  - assert (Hids : Forall (fun i => i < next_id db)
                     (Movie.id <$> List.filter p (rows db))).
    { rewrite Forall_fmap. rewrite Forall_forall in *. intros r Hr.
      cbn. apply Hlt. apply list_elem_of_In. apply list_elem_of_In in Hr.
      apply filter_In in Hr. tauto. }
    apply next_id_after_delete_fresh in Hids.
    rewrite Forall_fmap in Hids. exact Hids.
Qed.

(** X8: on a table with unique ids, a delete that finds its record removes
    exactly that one record: the count goes down by one and the other
    records stay, in their order. *)
Theorem delete_removes_one `{Engine} (movie_id : Z) (db : Db) (m : Movie.t) :
  db_wf db ->
  query_get movie_id db = Some m ->
  db_count (snd (delete_movie movie_id db)) = db_count db - 1
  /\ rows (snd (delete_movie movie_id db))
     = List.filter (fun r => negb (Movie.id r =? movie_id)) (rows db)
  /\ (forall r, In r (rows db) -> r <> m ->
        In r (rows (snd (delete_movie movie_id db))))
  /\ ~ In m (rows (snd (delete_movie movie_id db))).
Proof.
  intros Hwf Hm. unfold delete_movie. rewrite Hm. cbn [snd rows].
  destruct (query_get_In _ _ _ Hm) as [Hin Hid].
  split; [|split; [reflexivity|split]].
  - unfold db_count. cbn [rows].
    pose proof (filter_id_length movie_id (rows db) m (proj1 Hwf) Hm). lia.
  - intros r Hr Hne. apply filter_In. split; [exact Hr|].
    destruct (Z.eqb_spec (Movie.id r) movie_id) as [Hrid|]; [|reflexivity].
    exfalso. apply Hne.
    pose proof (query_get_unique db r Hwf Hr) as Hq.
    rewrite Hrid, Hm in Hq. congruence.
  - intros Hin'. apply filter_In in Hin' as [_ Hp].
    rewrite Hid, Z.eqb_refl in Hp. discriminate.
Qed.

Lemma delete_removes_one_witness :
  db_count (snd (delete_movie (H := binary_engine) 2 two_rows_db)) = 1.
Proof.
  destruct (delete_removes_one (H := binary_engine) 2 two_rows_db
              (Movie.mk 2 "Brazil" "Comedy" 7 "https://img.example/b.png" 200)
              two_rows_db_wf eq_refl) as [Hc _].
  rewrite Hc. reflexivity.
Defined.

(** ** Updating a record: the other outcomes *)

(** An update looks the record up before it reads the body. *)
Lemma update_not_found `{Engine} (movie_id : Z) (json : option PyVal)
    (db : Db) :
  query_get movie_id db = None ->
  update_movie movie_id json db
  = Ok (json_error "Movie not found" 404 None, db).
Proof. intros Hnone. unfold update_movie. rewrite Hnone. reflexivity. Qed.

(** An update whose payload fails the partial validation. *)
Lemma update_invalid `{Engine} (movie_id : Z) (json : option PyVal)
    (db : Db) (m : Movie.t) (errors : gmap string string) :
  query_get movie_id db = Some m ->
  validate_movie_payload (get_json_or_empty json) true = Ok errors ->
  errors <> ∅ ->
  update_movie movie_id json db
  = Ok (json_error "Validation failed" 400 (Some errors), db)
  /\ get_movie movie_id db = (PDict (Movie.to_dict m), 200).
Proof.
  intros Hm Hval Hne. split.
  - unfold update_movie. rewrite Hm, Hval. cbn [bind].
    rewrite bool_decide_eq_false_2 by exact Hne. reflexivity.
  - unfold get_movie. rewrite Hm. reflexivity.
Qed.

(** X9: an update that does not answer 200 writes nothing.  The record is
    looked up before the body is read: for an id that is not in the table
    the answer is 404 whatever the body holds; for an id that is there, a
    payload that fails the partial validation gets the 400 error with the
    errors as details; in both cases the table is the one before. *)
Theorem update_failure_writes_nothing `{Engine} (movie_id : Z)
    (json : option PyVal) (db db' : Db) (resp : Response) :
  update_movie movie_id json db = Ok (resp, db') ->
  (query_get movie_id db = None ->
   resp = json_error "Movie not found" 404 None)
  /\ (forall m errors,
        query_get movie_id db = Some m ->
        validate_movie_payload (get_json_or_empty json) true = Ok errors ->
        errors <> ∅ ->
        resp = json_error "Validation failed" 400 (Some errors))
  /\ (snd resp <> 200 -> db' = db)
  /\ (snd resp = 200 \/ snd resp = 400 \/ snd resp = 404).
Proof.
  intros Hu. split; [|split].
  - intros Hnone. rewrite (update_not_found _ _ _ Hnone) in Hu. congruence.
  - intros m errors Hm Hval Hne.
    destruct (update_invalid _ json _ _ _ Hm Hval Hne) as [Hu' _].
    rewrite Hu' in Hu. congruence.
  - unfold update_movie in Hu.
    destruct (query_get movie_id db) as [m|];
      [|injection Hu as <- <-; cbn; auto].
    destruct (validate_movie_payload (get_json_or_empty json) true)
      as [errors|]; [|discriminate]. cbn [bind] in Hu.
    destruct (negb (bool_decide (errors = ∅)));
      [injection Hu as <- <-; cbn; auto|].
    destruct (get_json_or_empty json); try discriminate.
    destruct (apply_update d m); [|discriminate]. cbn [bind] in Hu.
    injection Hu as <- <-. cbn. split; [congruence | auto].
Qed.

Lemma update_failure_writes_nothing_witness :
  exists resp db',
    update_movie (H := binary_engine) 7
      (Some (PDict {[ "rating" := PInt 99 ]})) two_rows_db = Ok (resp, db')
    /\ resp = json_error "Movie not found" 404 None
    /\ db' = two_rows_db.
Proof.
  destruct (update_movie (H := binary_engine) 7
              (Some (PDict {[ "rating" := PInt 99 ]})) two_rows_db)
    as [[resp db']|e] eqn:Hu; [|vm_compute in Hu; discriminate].
  destruct (update_failure_writes_nothing (H := binary_engine) 7 _ _ _ _ Hu)
    as (Hnf & _ & Hsame & _).
  exists resp, db'. split; [reflexivity|].
  specialize (Hnf eq_refl). split; [exact Hnf|].
  apply Hsame. rewrite Hnf. discriminate.
Defined.

Lemma db_update_same movie_id db m :
  db_wf db -> query_get movie_id db = Some m -> db_update movie_id m db = db.
Proof.
  intros Hwf Hm. unfold db_update. destruct db as [rs nid]. cbn [rows next_id].
  f_equal. apply list_eq. intros k. rewrite list_lookup_fmap.
  destruct (rs !! k) as [r|] eqn:Hr; [|reflexivity]. cbn.
  destruct (Z.eqb_spec (Movie.id r) movie_id) as [Hid|]; [|reflexivity].
  f_equal.
  assert (Hin : In r (rows {| rows := rs; next_id := nid |})).
  { apply list_elem_of_In. eapply list_elem_of_lookup_2. exact Hr. }
  pose proof (query_get_unique _ r Hwf Hin) as Hq.
  rewrite Hid, Hm in Hq. congruence.
Qed.

Lemma validate_no_fields d :
  d !! "title" = None -> d !! "genre" = None -> d !! "rating" = None ->
  d !! "imageUrl" = None ->
  validate_dict d true = Ok ∅.
Proof.
  intros Et Eg Er Ei. unfold validate_dict, get_stripped, check_rating.
  rewrite Et, Eg, Ei, Er.
  rewrite !has_key_None by assumption. reflexivity.
Qed.

(** X11: on a table with unique ids, an update whose body carries none of
    the four fields (no body at all, an empty object, or only other keys)
    answers 200 with the record as it is and changes nothing in the
    table. *)
Theorem update_without_fields `{Engine} (movie_id : Z) (json : option PyVal)
    (db : Db) (m : Movie.t) (d : gmap string PyVal) :
  db_wf db ->
  query_get movie_id db = Some m ->
  get_json_or_empty json = PDict d ->
  (forall field, field ∈ payload_fields -> d !! field = None) ->
  update_movie movie_id json db = Ok ((PDict (Movie.to_dict m), 200), db).
Proof.
  intros Hwf Hm Hdata Hnone.
  assert (Et : d !! "title" = None)
    by (apply Hnone; unfold payload_fields; rewrite !elem_of_cons; auto).
  assert (Eg : d !! "genre" = None)
    by (apply Hnone; unfold payload_fields; rewrite !elem_of_cons; auto).
  assert (Er : d !! "rating" = None)
    by (apply Hnone; unfold payload_fields; rewrite !elem_of_cons; auto).
  assert (Ei : d !! "imageUrl" = None)
    by (apply Hnone; unfold payload_fields; rewrite !elem_of_cons; auto 6).
  unfold update_movie. rewrite Hm, Hdata. cbn [validate_movie_payload].
  rewrite (validate_no_fields d Et Eg Er Ei). cbn [bind].
  rewrite bool_decide_eq_true_2 by reflexivity. cbn [negb].
  unfold apply_update. rewrite !has_key_None by assumption. cbn [bind].
  rewrite (db_update_same _ _ _ Hwf Hm). reflexivity.
Qed.

Lemma update_without_fields_witness :
  update_movie (H := binary_engine) 2 None two_rows_db
  = Ok ((PDict (@Movie.to_dict binary_engine
                  (Movie.mk 2 "Brazil" "Comedy" 7
                     "https://img.example/b.png" 200)), 200), two_rows_db).
Proof.
  apply (update_without_fields (H := binary_engine) 2 None two_rows_db _ ∅
           two_rows_db_wf eq_refl eq_refl).
  intros field _. apply lookup_empty.
Defined.

(** ** Invariants the operations keep *)

(** Case analysis on the tests and the calls a handler goes through. *)
Ltac split_tests :=
  repeat match goal with
         | |- context [if ?b then _ else _] => destruct b
         | |- context [match ?x with _ => _ end] =>
             match type of x with
             | option _ => destruct x
             | Result _ => destruct x
             end
         end.

(** One assignment of [apply_update]: the record is left alone or one of
    its fields is set. *)
Lemma update_step {A} d field (conv : PyVal -> Result A)
    (set : A -> Movie.t) (m m1 : Movie.t) :
  (if has_key d field
   then let* v := getitem d field in let* s := conv v in Ok (set s)
   else Ok m) = Ok m1 ->
  m1 = m \/ exists s, m1 = set s.
Proof.
  destruct (has_key d field); [|intros [= <-]; auto].
  destruct (getitem d field) as [v|]; [|discriminate]. cbn [bind].
  destruct (conv v) as [s|]; [|discriminate]. cbn [bind].
  intros [= <-]. eauto.
Qed.

Lemma apply_update_keeps_id d m m' :
  apply_update d m = Ok m' ->
  Movie.id m' = Movie.id m /\ Movie.created_at m' = Movie.created_at m.
Proof.
  unfold apply_update.
  match goal with |- bind ?s _ = _ -> _ => destruct s as [m1|] eqn:E1 end;
    [|discriminate]. cbn [bind].
  match goal with |- bind ?s _ = _ -> _ => destruct s as [m2|] eqn:E2 end;
    [|discriminate]. cbn [bind].
  match goal with |- bind ?s _ = _ -> _ => destruct s as [m3|] eqn:E3 end;
    [|discriminate]. cbn [bind].
  intros E4.
  apply update_step in E1 as [->|[s1 ->]];
    apply update_step in E2 as [->|[s2 ->]];
    apply update_step in E3 as [->|[s3 ->]];
    apply update_step in E4 as [->|[s4 ->]];
    split; reflexivity.
Qed.

(** The two ways [update_movie] returns. *)
Lemma update_movie_inv `{Engine} movie_id json db resp db' :
  update_movie movie_id json db = Ok (resp, db') ->
  db' = db
  \/ exists m m',
       query_get movie_id db = Some m /\ Movie.id m' = movie_id
       /\ Movie.created_at m' = Movie.created_at m
       /\ (exists d, get_json_or_empty json = PDict d
                     /\ validate_dict d true = Ok ∅
                     /\ apply_update d m = Ok m')
       /\ db' = db_update movie_id m' db.
Proof.
  unfold update_movie.
  destruct (query_get movie_id db) as [m|] eqn:Hm; [|intros [= _ <-]; auto].
  destruct (validate_movie_payload (get_json_or_empty json) true)
    as [errors|] eqn:Hval; [|discriminate].
  cbn [bind]. destruct (decide (errors = ∅)) as [->|Hne].
  - rewrite bool_decide_eq_true_2 by reflexivity. cbn [negb].
    destruct (get_json_or_empty json) as [| | | | | |d] eqn:Hdata;
      try discriminate.
    destruct (apply_update d m) as [m'|] eqn:Hupd; [|discriminate].
    cbn [bind]. intros [= _ <-]. right.
    destruct (apply_update_keeps_id _ _ _ Hupd) as [Hid Hcr].
    exists m, m'. split; [reflexivity|].
    split; [rewrite Hid; eapply query_get_id, Hm|].
    split; [exact Hcr|]. split; [|reflexivity]. eauto.
  - rewrite bool_decide_eq_false_2 by exact Hne. cbn [negb].
    intros [= _ <-]. auto.
Qed.

Lemma db_update_ids movie_id m' db :
  Movie.id m' = movie_id ->
  Movie.id <$> rows (db_update movie_id m' db) = Movie.id <$> rows db.
Proof.
  intros Hid. unfold db_update. cbn [rows]. rewrite <- list_fmap_compose.
  apply list_fmap_ext. intros _ r _. cbn.
  destruct (Z.eqb_spec (Movie.id r) movie_id); congruence.
Qed.

Lemma db_update_wf movie_id m' db :
  Movie.id m' = movie_id -> db_wf db -> db_wf (db_update movie_id m' db).
Proof.
  intros Hid [Hnd Hlt]. split.
  - rewrite db_update_ids by exact Hid. exact Hnd.
  - unfold db_update. cbn [rows next_id]. rewrite Forall_fmap.
    eapply Forall_impl; [exact Hlt|]. intros r Hr. cbn.
    destruct (Z.eqb_spec (Movie.id r) movie_id); [|exact Hr].
    cbn in Hr. lia.
Qed.

Lemma create_movie_inv `{Engine} now json db resp db' :
  create_movie now json db = Ok (resp, db') ->
  db' = db
  \/ exists t g r img, db' = snd (db_add now t g r img db).
Proof.
  unfold create_movie.
  destruct (validate_movie_payload (get_json_or_empty json) false)
    as [errors|]; [|discriminate].
  cbn [bind]. destruct (negb (bool_decide (errors = ∅)));
    [intros [= _ <-]; auto|].
  destruct (get_json_or_empty json); try discriminate.
  unfold getitem, bind. split_tests; intros Heq; try discriminate Heq.
  injection Heq as _ <-. right. eauto.
Qed.

(** X12: every operation that writes keeps the primary key sound: after
    seeding, a create, an update or a delete, the ids of the table are
    still pairwise distinct and below the next id to hand out. *)
Theorem handlers_keep_ids_unique `{Engine} (db : Db) :
  db_wf db ->
  (forall clock, db_wf (seed_if_empty clock 30 db))
  /\ (forall now json resp db',
        create_movie now json db = Ok (resp, db') -> db_wf db')
  /\ (forall movie_id json resp db',
        update_movie movie_id json db = Ok (resp, db') -> db_wf db')
  /\ (forall movie_id, db_wf (snd (delete_movie movie_id db))).
Proof.
  intros Hwf. split; [|split; [|split]].
  - intros clock. unfold seed_if_empty.
    destruct (db_count db >=? 30); [exact Hwf|].
    apply add_all_seeded_wf, Hwf.
  - intros now json resp db' Hc.
    destruct (create_movie_inv _ _ _ _ _ Hc) as [->|(t & g & r & img & ->)];
      [exact Hwf | apply db_add_wf, Hwf].
  - intros movie_id json resp db' Hu.
    destruct (update_movie_inv _ _ _ _ _ Hu)
      as [->|(m & m' & _ & Hid & _ & _ & ->)];
      [exact Hwf | apply db_update_wf; assumption].
  - intros movie_id. unfold delete_movie.
    destruct (query_get movie_id db); [|exact Hwf].
    cbn [snd]. apply filter_keeps_wf, Hwf.
Qed.

Lemma handlers_keep_ids_unique_witness :
  db_wf (seed_if_empty (fun i => i) 30 two_rows_db)
  /\ db_wf (snd (delete_movie (H := binary_engine) 1 two_rows_db)).
Proof.
  destruct (handlers_keep_ids_unique (H := binary_engine) two_rows_db
              two_rows_db_wf) as (Hseed & _ & _ & Hdel).
  split; [apply Hseed | apply Hdel].
Defined.

Lemma movie_validb_spec m : movie_validb m = true <-> movie_valid m.
Proof.
  unfold movie_validb, movie_valid.
  rewrite !andb_true_iff, !Z.leb_le, !String.eqb_eq. tauto.
Qed.

Lemma seeded_rows_valid clock base :
  Forall movie_valid (imap (seeded_row clock base) (range1 30)).
Proof.
  assert (Hall : forallb (fun i => movie_validb (seeded_row (fun _ => 0) 0 0 i))
                   (range1 30) = true) by (vm_compute; reflexivity).
  rewrite forallb_forall in Hall.
  apply Forall_forall. intros m Hm.
  apply list_elem_of_lookup in Hm as [k Hk].
  rewrite list_lookup_imap in Hk.
  destruct (range1 30 !! k) as [i|] eqn:Hi; [|discriminate].
  injection Hk as <-.
  assert (Hin : In i (range1 30))
    by (apply list_elem_of_In; eapply list_elem_of_lookup_2; exact Hi).
  specialize (Hall i Hin). apply movie_validb_spec in Hall.
  unfold seeded_row in *. destruct (seed_columns i) as [[[t g] r] img].
  exact Hall.
Qed.

Lemma apply_update_valid d m m' :
  validate_dict d true = Ok ∅ -> apply_update d m = Ok m' ->
  movie_valid m -> movie_valid m'.
Proof.
  intros Hval Hupd (Hr & Htl & Hts & Hgl & Hgs & Hil & His).
  destruct (apply_update_spec d m Hval)
    as (m'' & Hupd' & _ & _ & Et & Eg & Er & Ei).
  assert (m'' = m') by congruence. subst m''.
  destruct (validate_dict_ok_inv d true Hval) as (Vt & Vg & Vi & Vr & _).
  unfold movie_valid. rewrite Et, Eg, Er, Ei.
  destruct (d !! "title") as [vt|];
    [destruct (Vt vt eq_refl) as (st & -> & Hst)|];
  (destruct (d !! "genre") as [vg|];
    [destruct (Vg vg eq_refl) as (sg & -> & Hsg)|]);
  (destruct (d !! "imageUrl") as [vi|];
    [destruct (Vi vi eq_refl) as (si & -> & Hsi)|]);
  (destruct (d !! "rating") as [vr|];
    [destruct (Vr vr eq_refl) as (n & -> & Hn)|]);
  rewrite ?strip_idem; auto 10.
Qed.

(** X13: the constraints of the data model are an invariant of the table:
    if every record has a rating within 1 and 10 and trimmed text fields of
    the required lengths, so it is after seeding, after a create, after an
    update and after a delete. *)
Theorem table_stays_valid `{Engine} (db : Db) :
  Forall movie_valid (rows db) ->
  (forall clock, Forall movie_valid (rows (seed_if_empty clock 30 db)))
  /\ (forall now json resp db',
        create_movie now json db = Ok (resp, db') ->
        Forall movie_valid (rows db'))
  /\ (forall movie_id json resp db',
        update_movie movie_id json db = Ok (resp, db') ->
        Forall movie_valid (rows db'))
  /\ (forall movie_id,
        Forall movie_valid (rows (snd (delete_movie movie_id db)))).
Proof.
  intros Hall. split; [|split; [|split]].
  - intros clock. destruct (Z_lt_le_dec (db_count db) 30) as [Hlt|Hge].
    + rewrite seed_adds_rows by exact Hlt. apply Forall_app.
      split; [exact Hall | apply seeded_rows_valid].
    + rewrite seed_noop by exact Hge. exact Hall.
  - intros now json resp db' Hc.
    destruct (validate_movie_payload (get_json_or_empty json) false)
      as [errors|] eqn:Hval;
      [|unfold create_movie in Hc; rewrite Hval in Hc; discriminate].
    destruct (decide (errors = ∅)) as [->|Hne].
    + destruct (create_movie_ok now json db Hval)
        as (d & st & sg & si & vr & m & _ & _ & _ & _ & _ & _ & _ & Hresp & Hm).
      rewrite Hresp in Hc. injection Hc as _ <-. cbn [rows].
      apply Forall_app. split; [exact Hall|]. constructor; [exact Hm|constructor].
    + unfold create_movie in Hc. rewrite Hval in Hc. cbn [bind] in Hc.
      rewrite bool_decide_eq_false_2 in Hc by exact Hne.
      injection Hc as _ <-. exact Hall.
  - intros movie_id json resp db' Hu.
    destruct (update_movie_inv _ _ _ _ _ Hu)
      as [->|(m & m' & Hm & _ & _ & (d & _ & Hval & Hupd) & ->)];
      [exact Hall|].
    unfold db_update. cbn [rows]. rewrite Forall_fmap.
    assert (Hvm : movie_valid m).
    { rewrite Forall_forall in Hall. apply Hall.
      apply list_elem_of_In. eapply query_get_In, Hm. }
    pose proof (apply_update_valid d m m' Hval Hupd Hvm) as Hvm'.
    eapply Forall_impl; [exact Hall|]. intros r Hr. cbn.
    destruct (Movie.id r =? movie_id); assumption.
  - intros movie_id. unfold delete_movie.
    destruct (query_get movie_id db); [|exact Hall]. cbn [snd rows].
    rewrite Forall_forall in *. intros r Hr. apply Hall.
    apply list_elem_of_In. apply list_elem_of_In in Hr.
    apply filter_In in Hr. tauto.
Qed.

Lemma table_stays_valid_witness :
  Forall movie_valid (rows demo_db).
Proof.
  destruct (table_stays_valid (H := binary_engine)
              {| rows := []; next_id := 1 |} (List.Forall_nil _)) as [Hseed _].
  apply Hseed.
Defined.

(** ** The seeding hook after a delete *)

Lemma delete_removes_one_count `{Engine} movie_id db m :
  db_wf db -> query_get movie_id db = Some m ->
  db_count (snd (delete_movie movie_id db)) = db_count db - 1
  /\ rows (snd (delete_movie movie_id db))
     = List.filter (fun r => negb (Movie.id r =? movie_id)) (rows db)
  /\ db_wf (snd (delete_movie movie_id db)).
Proof.
  intros Hwf Hm. unfold delete_movie. rewrite Hm. cbn [snd rows].
  split; [|split; [reflexivity | apply filter_keeps_wf, Hwf]].
  unfold db_count. cbn [rows].
  pose proof (filter_id_length movie_id (rows db) m (proj1 Hwf) Hm). lia.
Qed.

(** X14: the hook that runs before every request seeds again as soon as
    the table has fewer than 30 records: on a table of at most 30 records
    with unique ids, a delete that finds its record is followed, at the
    next request, by 30 more placeholders after the records that were
    left, which leaves 29 records more than before the delete; the ids
    are still pairwise distinct. *)
Theorem delete_then_hook_reseeds `{Engine} (clock : Z -> Z) (movie_id : Z)
    (db : Db) (m : Movie.t) :
  db_wf db ->
  db_count db <= 30 ->
  query_get movie_id db = Some m ->
  db_count (ensure_db_ready clock (snd (delete_movie movie_id db)))
  = db_count db + 29
  /\ (exists added,
        rows (ensure_db_ready clock (snd (delete_movie movie_id db)))
        = (List.filter (fun r => negb (Movie.id r =? movie_id)) (rows db)
           ++ added)%list
        /\ length added = 30%nat)
  /\ db_wf (ensure_db_ready clock (snd (delete_movie movie_id db))).
Proof.
  intros Hwf Hle Hm.
  destruct (delete_removes_one_count movie_id db m Hwf Hm)
    as (Hc & Hrows & Hwf').
  unfold ensure_db_ready. split; [|split].
  - rewrite seed_count by lia. lia.
  - eexists. split.
    + rewrite seed_adds_rows by lia. rewrite Hrows. reflexivity.
    + rewrite length_imap. unfold range1. rewrite length_seqZ. reflexivity.
  - unfold seed_if_empty.
    destruct (db_count (snd (delete_movie movie_id db)) >=? 30);
      [exact Hwf' | apply add_all_seeded_wf, Hwf'].
Qed.

Lemma delete_then_hook_reseeds_witness :
  db_count (ensure_db_ready (fun i => i)
              (snd (delete_movie (H := binary_engine) 2 two_rows_db)))
  = 31.
Proof.
  destruct (delete_then_hook_reseeds (H := binary_engine) (fun i => i) 2
              two_rows_db
              (Movie.mk 2 "Brazil" "Comedy" 7 "https://img.example/b.png" 200)
              two_rows_db_wf ltac:(vm_compute; discriminate) eq_refl)
    as [Hc _].
  rewrite Hc. reflexivity.
Defined.

(** On an engine that goes back to the highest id left, the id of the
    deleted record is handed out again: after the delete of record 2 and
    the hook, id 2 is the first placeholder. *)
Lemma deleted_id_handed_out_again :
  Movie.title
    <$> query_get 2
          (ensure_db_ready (fun i => i)
             (snd (delete_movie (H := binary_engine) 2 two_rows_db)))
  = Some "Movie 1".
Proof. vm_compute. reflexivity. Qed.

(** ** Pages *)

Lemma pages_prefix (ps : Z) (l : list Movie.t) (n : nat) :
  1 <= ps ->
  mjoin ((fun k => page_slice k ps l) <$> seqZ 1 (Z.of_nat n))
  = take (n * Z.to_nat ps) l.
Proof.
  intros Hps. induction n as [|n IH]; [reflexivity|].
  rewrite seqZ_S, fmap_app, join_app, IH.
  cbn [fmap list_fmap mjoin list_join]. rewrite app_nil_r.
  unfold page_slice.
  replace (Z.to_nat ((1 + Z.of_nat n - 1) * ps)) with (n * Z.to_nat ps)%nat
    by nia.
  rewrite take_take_drop. f_equal. lia.
Qed.

Lemma page_slice_length page ps (l : list Movie.t) :
  1 <= page -> 1 <= ps ->
  Z.of_nat (length (page_slice page ps l))
  = Z.max 0 (Z.min ps (Z.of_nat (length l) - (page - 1) * ps)).
Proof.
  intros Hpage Hps. unfold page_slice. rewrite length_take, length_drop.
  nia.
Qed.

(** X15: the pages of one query fit together: a list request whose offset
    the driver binds is answered with the slice of its page, and for its
    page size the slices of the pages 1 to [totalPages], put one after the
    other, are the whole filtered and sorted sequence, each record once
    and in order. *)
Theorem pages_cover_query `{Engine} (args : Args) (db : Db)
    (page page_size : Z) :
  list_paging args = Ok (page, page_size) ->
  (page - 1) * page_size <= int_max ->
  exists body total_pages,
    list_movies args db = Ok (PDict body, 200)
    /\ body !! "items"
       = Some (PList ((fun m => PDict (Movie.to_dict m)) <$>
                        page_slice page page_size (list_query args db)))
    /\ body !! "totalPages" = Some (PInt total_pages)
    /\ mjoin ((fun k => page_slice k page_size (list_query args db))
                <$> seqZ 1 total_pages)
       = list_query args db.
Proof.
  intros Hp Hoff. pose proof (list_paging_bounds _ _ _ Hp) as [_ [Hps _]].
  eexists _, _. split; [apply list_movies_ok; [exact Hp | exact Hoff]|].
  split; [by simplify_map_eq|]. split; [by simplify_map_eq|].
  set (total := Z.of_nat (length (list_query args db))).
  pose proof (ceil_div total page_size Hps) as Hceil. cbn zeta in Hceil.
  set (tp := (total + page_size - 1) / page_size) in *.
  assert (0 <= tp) by (apply Z.div_pos; lia).
  rewrite <- (Z2Nat.id tp) by assumption.
  rewrite pages_prefix by exact Hps. apply take_ge. nia.
Qed.

Lemma pages_cover_query_witness :
  exists body total_pages,
    list_movies (H := binary_engine) [("pageSize", "7")] demo_db
    = Ok (PDict body, 200)
    /\ body !! "totalPages" = Some (PInt total_pages)
    /\ mjoin ((fun k => page_slice k 7
                          (list_query (H := binary_engine)
                             [("pageSize", "7")] demo_db))
                <$> seqZ 1 total_pages)
       = list_query (H := binary_engine) [("pageSize", "7")] demo_db.
Proof.
  destruct (pages_cover_query (H := binary_engine) [("pageSize", "7")]
              demo_db 1 7 eq_refl ltac:(vm_compute; discriminate))
    as (body & tp & Hr & _ & Htp & Hcover).
  exists body, tp. auto.
Defined.

(** X16: the number of records on a page whose offset the driver binds:
    [pageSize] on a page that lies wholly within the matches, what is left
    on the last page, and none beyond; a page holds a record exactly when
    its offset is below [total]. *)
Theorem page_item_count `{Engine} (args : Args) (db : Db)
    (page page_size : Z) :
  list_paging args = Ok (page, page_size) ->
  (page - 1) * page_size <= int_max ->
  exists body items,
    list_movies args db = Ok (PDict body, 200)
    /\ body !! "items" = Some (PList items)
    /\ Z.of_nat (length items)
       = Z.max 0 (Z.min page_size
                    (Z.of_nat (length (list_matches args db))
                     - (page - 1) * page_size))
    /\ (items <> []
        <-> (page - 1) * page_size < Z.of_nat (length (list_matches args db))).
Proof.
  intros Hp Hoff. pose proof (list_paging_bounds _ _ _ Hp) as [Hpage [Hps _]].
  eexists _, _. split; [apply list_movies_ok; [exact Hp | exact Hoff]|].
  split; [by simplify_map_eq|].
  fold (page_slice page page_size (list_query args db)).
  rewrite length_fmap, <- list_query_length.
  pose proof (page_slice_length page page_size (list_query args db) Hpage Hps)
    as Hlen.
  split; [exact Hlen|].
  rewrite <- length_zero_iff_nil, length_fmap. lia.
Qed.

Lemma page_item_count_witness :
  exists body items,
    list_movies (H := binary_engine) [("page", "5"); ("pageSize", "7")] demo_db
    = Ok (PDict body, 200)
    /\ body !! "items" = Some (PList items)
    /\ Z.of_nat (length items) = 2.
Proof.
  destruct (page_item_count (H := binary_engine)
              [("page", "5"); ("pageSize", "7")] demo_db 5 7 eq_refl
              ltac:(vm_compute; discriminate))
    as (body & items & Hr & Hi & Hlen & _).
  exists body, items. split; [exact Hr|]. split; [exact Hi|].
  rewrite Hlen. vm_compute. reflexivity.
Defined.

(** ** Filters *)

Lemma blank_arg_text x : blank_arg x -> filter_text x = "".
Proof.
  unfold blank_arg, filter_text, str_or. destruct x as [s|]; [|reflexivity].
  destruct (String.eqb_spec s "") as [->|_]; [reflexivity|]. auto.
Qed.

Lemma stats_page_size_ok args : exists ps, stats_page_size args = Ok ps.
Proof.
  unfold stats_page_size.
  destruct (parse_int_arg_cases args "pageSize" 10 (Some 1) (Some 50))
    as [[Hs _]|[(rs & s & _ & _ & _ & Hs)|(rs & _ & _ & _ & Hs)]];
    rewrite Hs; eauto.
Qed.

(** X17: a [q] or [genre] that is absent, empty or only white space does
    not filter: with both so, the [total] of a list request whose offset
    the driver binds is the number of records of the table, the same
    number [stats] reports as [total]. *)
Theorem unfiltered_total_is_count `{Engine} (args : Args) (db : Db)
    (page page_size : Z) :
  list_paging args = Ok (page, page_size) ->
  (page - 1) * page_size <= int_max ->
  blank_arg (args_get "q" args) -> blank_arg (args_get "genre" args) ->
  exists body sbody,
    list_movies args db = Ok (PDict body, 200)
    /\ body !! "total" = Some (PInt (db_count db))
    /\ stats args db = Ok (PDict sbody, 200)
    /\ sbody !! "total" = Some (PInt (db_count db)).
Proof.
  intros Hp Hoff Hq Hg.
  destruct (stats_page_size_ok args) as [ps Hps].
  eexists _, _. split; [apply list_movies_ok; [exact Hp | exact Hoff]|]. split.
  - rewrite list_query_length. unfold list_matches.
    fold (filter_text (args_get "q" args)).
    fold (filter_text (args_get "genre" args)).
    rewrite (blank_arg_text _ Hq), (blank_arg_text _ Hg).
    by simplify_map_eq.
  - split; [unfold stats; rewrite Hps; reflexivity|]. by simplify_map_eq.
Qed.

Lemma unfiltered_total_is_count_witness :
  exists body,
    list_movies (H := binary_engine) [("q", "  "); ("page", "2")] demo_db
    = Ok (PDict body, 200)
    /\ body !! "total" = Some (PInt 30).
Proof.
  destruct (unfiltered_total_is_count (H := binary_engine)
              [("q", "  "); ("page", "2")] demo_db 2 10 eq_refl
              ltac:(vm_compute; discriminate) eq_refl I)
    as (body & _ & Hr & Ht & _).
  exists body. split; [exact Hr|]. rewrite Ht. reflexivity.
Defined.

Lemma apply_filters_In `{Engine} q genre (l : list Movie.t) m :
  In m (apply_filters q genre l)
  <-> In m l
      /\ (q <> "" -> sql_ilike (Movie.title m) ("%" ++ q ++ "%") = true)
      /\ (genre <> "" -> sql_eq (Movie.genre m) genre = true).
Proof.
  unfold apply_filters.
  destruct (String.eqb_spec q "") as [Hq|Hq];
    destruct (String.eqb_spec genre "") as [Hg|Hg]; cbn [negb];
    rewrite ?filter_In; intuition congruence.
Qed.

(** X18: the list holds the matching records and no other: a record is in
    the filtered and sorted sequence exactly when it is in the table,
    its title matches [%q%] under the engine's [ILIKE] if [q] is given,
    and its genre equals [genre] under the engine's [=] if [genre] is
    given, both tests together when both are given; every record on a
    page is such a record. *)
Theorem list_holds_matches_only `{Engine} (args : Args) (db : Db)
    (page page_size : Z) (m : Movie.t) :
  let q := filter_text (args_get "q" args) in
  let genre := filter_text (args_get "genre" args) in
  (In m (list_query args db)
   <-> In m (rows db)
       /\ (q <> "" -> sql_ilike (Movie.title m) ("%" ++ q ++ "%") = true)
       /\ (genre <> "" -> sql_eq (Movie.genre m) genre = true))
  /\ (In m (page_slice page page_size (list_query args db)) ->
      In m (list_query args db)).
Proof.
  intros q genre. split.
  - rewrite <- apply_filters_In.
    change (apply_filters q genre (rows db)) with (list_matches args db).
    split; apply Permutation_in;
      [apply list_query_perm | symmetry; apply list_query_perm].
  - unfold page_slice. intros Hin. apply list_elem_of_In in Hin.
    apply list_elem_of_In.
    eapply subseteq_drop, subseteq_take. exact Hin.
Qed.

Lemma list_holds_matches_only_witness :
  In (Movie.mk 2 "Brazil" "Comedy" 7 "https://img.example/b.png" 200)
    (list_query (H := binary_engine) [("q", "RAZ"); ("genre", "Comedy")]
       two_rows_db)
  /\ ~ In (Movie.mk 1 "Alien" "Horror" 3 "https://img.example/a.png" 100)
        (list_query (H := binary_engine) [("q", "RAZ"); ("genre", "Comedy")]
           two_rows_db).
Proof.
  split.
  - destruct (list_holds_matches_only (H := binary_engine)
                [("q", "RAZ"); ("genre", "Comedy")] two_rows_db 1 10
                (Movie.mk 2 "Brazil" "Comedy" 7 "https://img.example/b.png" 200))
      as [Hiff _].
    apply Hiff. split; [right; left; reflexivity|].
    split; intros _; reflexivity.
  - intros Hin.
    destruct (list_holds_matches_only (H := binary_engine)
                [("q", "RAZ"); ("genre", "Comedy")] two_rows_db 1 10
                (Movie.mk 1 "Alien" "Horror" 3 "https://img.example/a.png" 100))
      as [Hiff _].
    apply Hiff in Hin as (_ & Hq & _).
    assert (Hne : filter_text (args_get "q" [("q", "RAZ"); ("genre", "Comedy")])
                  <> "") by discriminate.
    specialize (Hq Hne). vm_compute in Hq. discriminate.
Defined.

(** ** The most common genre *)

Lemma max_by_count_first (best : string * Z) (l : list (string * Z)) :
  exists pre post,
    best :: l = (pre ++ max_by_count best l :: post)%list
    /\ (forall y, In y pre -> snd y < snd (max_by_count best l))
    /\ (forall y, In y post -> snd y <= snd (max_by_count best l)).
Proof.
  revert best. induction l as [|x l IH]; intros best.
  - exists [], []. cbn. split; [reflexivity|]. split; intros y [].
  - cbn [max_by_count]. unfold Z.gtb.
    destruct (Z.compare_spec (snd x) (snd best)) as [Heq|Hlt|Hgt].
    + destruct (IH best) as (pre & post & Hsplit & Hpre & Hpost).
      destruct pre as [|b pre].
      * cbn [app] in Hsplit. injection Hsplit as Hb Hl.
        exists [], (x :: post). cbn [app].
        split; [congruence|]. split; [intros y []|].
        intros y [<-|Hy]; [rewrite <- Hb; lia | apply Hpost, Hy].
      * cbn [app] in Hsplit. injection Hsplit as Hb Hl. subst b.
        exists (best :: x :: pre), post. cbn [app].
        split; [congruence|]. split; [|exact Hpost].
        pose proof (Hpre best (or_introl eq_refl)).
        intros y [<-|[<-|Hy]]; [assumption | lia | apply Hpre; right; exact Hy].
    + destruct (IH best) as (pre & post & Hsplit & Hpre & Hpost).
      destruct pre as [|b pre].
      * cbn [app] in Hsplit. injection Hsplit as Hb Hl.
        exists [], (x :: post). cbn [app].
        split; [congruence|]. split; [intros y []|].
        intros y [<-|Hy]; [rewrite <- Hb; lia | apply Hpost, Hy].
      * cbn [app] in Hsplit. injection Hsplit as Hb Hl. subst b.
        exists (best :: x :: pre), post. cbn [app].
        split; [congruence|]. split; [|exact Hpost].
        pose proof (Hpre best (or_introl eq_refl)).
        intros y [<-|[<-|Hy]]; [assumption | lia | apply Hpre; right; exact Hy].
    + destruct (IH x) as (pre & post & Hsplit & Hpre & Hpost).
      exists (best :: pre), post. cbn [app].
      split; [congruence|]. split; [|exact Hpost].
      assert (Hx : snd x <= snd (max_by_count x l)).
      { destruct pre as [|b pre].
        - cbn [app] in Hsplit. injection Hsplit as Hb _. rewrite <- Hb. lia.
        - cbn [app] in Hsplit. injection Hsplit as Hb _. subst b.
          pose proof (Hpre x (or_introl eq_refl)). lia. }
      intros y [<-|Hy]; [lia | apply Hpre, Hy].
Qed.

(** X19: [topGenre] in the answer of [stats] is [null] when the engine
    returns no group; otherwise it is the genre of the first group, in the
    order the engine returns them, whose count is the largest: every group
    before it has a smaller count and no group after it has a larger
    one. *)
Theorem stats_top_genre `{Engine} (args : Args) (db : Db) :
  exists body,
    stats args db = Ok (PDict body, 200)
    /\ (group_count (Movie.genre <$> rows db) = [] ->
        body !! "topGenre" = Some PNone)
    /\ (forall x l,
          group_count (Movie.genre <$> rows db) = x :: l ->
          exists pre top post,
            x :: l = (pre ++ top :: post)%list
            /\ body !! "topGenre" = Some (PStr (fst top))
            /\ (forall y, In y pre -> snd y < snd top)
            /\ (forall y, In y post -> snd y <= snd top)).
Proof.
  destruct (stats_page_size_ok args) as [ps Hps].
  eexists. split; [unfold stats; rewrite Hps; reflexivity|]. split.
  - intros ->. by simplify_map_eq.
  - intros x l ->.
    destruct (max_by_count_first x l) as (pre & post & Hsplit & Hpre & Hpost).
    exists pre, (max_by_count x l), post.
    split; [exact Hsplit|]. split; [by simplify_map_eq|]. auto.
Qed.

Lemma stats_top_genre_witness :
  exists body,
    stats (H := binary_engine) [] demo_db = Ok (PDict body, 200)
    /\ body !! "topGenre" = Some (PStr "Action").
Proof.
  destruct (stats_top_genre (H := binary_engine) [] demo_db)
    as (body & Hr & _ & Htop).
  assert (Hg : @group_count binary_engine (Movie.genre <$> rows demo_db)
               = [("Action", 4); ("Comedy", 4); ("Drama", 4); ("Horror", 4);
                  ("Sci-Fi", 4); ("Romance", 4); ("Thriller", 3);
                  ("Animation", 3)]) by (vm_compute; reflexivity).
  destruct (Htop _ _ Hg) as (pre & top & post & Hsplit & Hb & Hpre & _).
  exists body. split; [exact Hr|]. rewrite Hb. do 2 f_equal.
  destruct pre as [|b pre].
  - cbn [app] in Hsplit. injection Hsplit as <- _. reflexivity.
  - cbn [app] in Hsplit. injection Hsplit as <- Hrest.
    exfalso. pose proof (Hpre _ (or_introl eq_refl)) as Hlt.
    assert (Hin : In top [("Comedy", 4); ("Drama", 4); ("Horror", 4);
                          ("Sci-Fi", 4); ("Romance", 4); ("Thriller", 3);
                          ("Animation", 3)])
      by (rewrite Hrest; apply in_elt).
    cbn in Hin, Hlt.
    repeat (destruct Hin as [<-|Hin]; [cbn in Hlt; lia|]). exact Hin.
Defined.

(** ** The placeholders *)

Lemma append_inj_r (s a b : string) : (s ++ a)%string = (s ++ b)%string -> a = b.
Proof.
  induction s as [|c s IH]; cbn; [auto|]. intros [= Heq]. apply IH, Heq.
Qed.

Lemma seed_columns_inj i j :
  (seed_columns i).1.1.1 = (seed_columns j).1.1.1
  \/ (seed_columns i).2 = (seed_columns j).2 ->
  i = j.
Proof.
  unfold seed_columns. cbn [fst snd].
  intros [Heq|Heq]; apply append_inj_r in Heq; exact (inj pretty _ _ Heq).
Qed.

(** X20: the placeholders of one seeding are told apart by their index:
    the [k]-th of them (from 0) gets the id [next_id + k], the clock
    reading of index [k + 1], the title and the image URL that embed
    [k + 1]; two of them never share a title, an image URL or an id. *)
Theorem seeded_placeholders_distinct (clock : Z -> Z) (db : Db) :
  db_count db < 30 ->
  (forall (k : nat), (k < 30)%nat ->
     exists m,
       rows (seed_if_empty clock 30 db) !! (length (rows db) + k)%nat = Some m
       /\ Movie.id m = next_id db + Z.of_nat k
       /\ Movie.created_at m = clock (1 + Z.of_nat k)
       /\ Movie.title m = ("Movie " ++ pretty (1 + Z.of_nat k))%string
       /\ Movie.image_url m
          = ("https://via.placeholder.com/300x200.png?text=Movie+"
             ++ pretty (1 + Z.of_nat k))%string)
  /\ (forall (k1 k2 : nat) m1 m2,
        rows (seed_if_empty clock 30 db) !! (length (rows db) + k1)%nat
          = Some m1 ->
        rows (seed_if_empty clock 30 db) !! (length (rows db) + k2)%nat
          = Some m2 ->
        Movie.title m1 = Movie.title m2
        \/ Movie.image_url m1 = Movie.image_url m2
        \/ Movie.id m1 = Movie.id m2 ->
        k1 = k2).
Proof.
  intros Hlt.
  assert (Hrow : forall (k : nat) m,
             rows (seed_if_empty clock 30 db) !! (length (rows db) + k)%nat
               = Some m ->
             (k < 30)%nat
             /\ m = seeded_row clock (next_id db) k (1 + Z.of_nat k)).
  { intros k m. rewrite seed_adds_rows by exact Hlt.
    rewrite lookup_app_r by lia.
    replace (length (rows db) + k - length (rows db))%nat with k by lia.
    intros Hk.
    assert (Hk30 : (k < 30)%nat).
    { apply lookup_lt_Some in Hk. rewrite length_imap in Hk.
      unfold range1 in Hk. rewrite length_seqZ in Hk. lia. }
    rewrite seeded_row_lookup in Hk by exact Hk30. split; congruence. }
  split.
  - intros k Hk. eexists. split.
    + rewrite seed_adds_rows by exact Hlt. rewrite lookup_app_r by lia.
      replace (length (rows db) + k - length (rows db))%nat with k by lia.
      apply seeded_row_lookup, Hk.
    + repeat split.
  - intros k1 k2 m1 m2 H1 H2 Hsame.
    destruct (Hrow _ _ H1) as [_ ->]. destruct (Hrow _ _ H2) as [_ ->].
    unfold seeded_row in Hsame.
    destruct (seed_columns (1 + Z.of_nat k1)) as [[[t1 g1] r1] i1] eqn:E1.
    destruct (seed_columns (1 + Z.of_nat k2)) as [[[t2 g2] r2] i2] eqn:E2.
    cbn [Movie.title Movie.image_url Movie.id] in Hsame.
    destruct Hsame as [Ht|[Hi|Hid]]; [| |lia].
    + assert (1 + Z.of_nat k1 = 1 + Z.of_nat k2); [|lia].
      apply seed_columns_inj. left. rewrite E1, E2. exact Ht.
    + assert (1 + Z.of_nat k1 = 1 + Z.of_nat k2); [|lia].
      apply seed_columns_inj. right. rewrite E1, E2. exact Hi.
Qed.

Lemma seeded_placeholders_distinct_witness :
  exists m,
    rows demo_db !! 4%nat = Some m
    /\ Movie.id m = 5
    /\ Movie.title m = "Movie 5"
    /\ Movie.image_url m
       = "https://via.placeholder.com/300x200.png?text=Movie+5".
Proof.
  destruct (seeded_placeholders_distinct (fun i => i)
              {| rows := []; next_id := 1 |} ltac:(vm_compute; reflexivity))
    as [Hrows _].
  destruct (Hrows 4%nat ltac:(lia)) as (m & Hm & Hid & _ & Ht & Hi).
  exists m. auto.
Defined.

(** ** Partial validation *)

Lemma overwrite_is_Some (c : bool) k x (errors : gmap string string) field :
  is_Some ((if c then <[k := x]> errors else errors) !! field) ->
  (c = true /\ k = field) \/ is_Some (errors !! field).
Proof.
  destruct c; [|auto]. rewrite lookup_insert_is_Some'. intuition.
Qed.

Lemma check_rating_is_Some_key d (errors : gmap string string) k :
  is_Some (check_rating d errors !! k) ->
  (k = "rating" /\ is_Some (d !! "rating")) \/ is_Some (errors !! k).
Proof.
  unfold check_rating.
  destruct (d !! "rating") as [v|]; [|auto].
  destruct (PyVal_ops.int v) as [n|e];
    [destruct ((n <? 1) || (n >? 10))|];
    rewrite ?lookup_insert_is_Some'; intuition eauto.
Qed.

(** X21: the partial validation judges only what the payload supplies: a
    field is reported only if the payload has that key, so a payload
    without any of the four fields passes. *)
Theorem partial_validates_present_only (d : gmap string PyVal)
    (errors : gmap string string) (field : string) :
  validate_movie_payload (PDict d) true = Ok errors ->
  is_Some (errors !! field) ->
  is_Some (d !! field).
Proof.
  cbn [validate_movie_payload]. unfold validate_dict.
  destruct (get_stripped d "title") as [t|]; [|discriminate].
  destruct (get_stripped d "genre") as [g|]; [|discriminate].
  destruct (get_stripped d "imageUrl") as [i|]; [|discriminate].
  cbn [bind]. intros [= <-] Hsome.
  assert (Hkey : forall f b, has_key d f && b = true -> is_Some (d !! f)).
  { intros f b Hb. apply andb_true_iff in Hb as [Hb _].
    unfold has_key in Hb. apply bool_decide_eq_true in Hb. exact Hb. }
  apply check_rating_is_Some_key in Hsome as [[-> Hr]|Hsome]; [exact Hr|].
  apply overwrite_is_Some in Hsome as [[Hc <-]|Hsome]; [eapply Hkey, Hc|].
  apply overwrite_is_Some in Hsome as [[Hc <-]|Hsome]; [eapply Hkey, Hc|].
  apply overwrite_is_Some in Hsome as [[Hc <-]|Hsome]; [eapply Hkey, Hc|].
  rewrite lookup_empty in Hsome. destruct Hsome; discriminate.
Qed.

Lemma partial_validates_present_only_witness :
  is_Some (({[ "rating" := PStr "ten" ]} : gmap string PyVal) !! "rating").
Proof.
  apply (partial_validates_present_only {[ "rating" := PStr "ten" ]}
           {[ "rating" := "Rating must be a number" ]} "rating").
  - vm_compute. reflexivity.
  - rewrite lookup_singleton_eq. eauto.
Defined.

(** ** The hook and the list *)

(** X22: the seeding shows through the list: a list request without
    filters whose offset the driver binds, served after the hook that runs
    before every request, reports a [total] of at least 30, whatever the
    table held before. *)
Theorem hook_then_list_total `{Engine} (clock : Z -> Z) (args : Args)
    (db : Db) (page page_size : Z) :
  list_paging args = Ok (page, page_size) ->
  (page - 1) * page_size <= int_max ->
  blank_arg (args_get "q" args) -> blank_arg (args_get "genre" args) ->
  exists body total,
    list_movies args (ensure_db_ready clock db) = Ok (PDict body, 200)
    /\ body !! "total" = Some (PInt total)
    /\ 30 <= total
    /\ db_count db <= total.
Proof.
  intros Hp Hoff Hq Hg.
  eexists _, (db_count (ensure_db_ready clock db)).
  split; [apply list_movies_ok; [exact Hp | exact Hoff]|]. split.
  - rewrite list_query_length. unfold list_matches.
    fold (filter_text (args_get "q" args)).
    fold (filter_text (args_get "genre" args)).
    rewrite (blank_arg_text _ Hq), (blank_arg_text _ Hg).
    by simplify_map_eq.
  - unfold ensure_db_ready.
    destruct (Z_lt_le_dec (db_count db) 30) as [Hlt|Hge].
    + rewrite seed_count by exact Hlt. unfold db_count. lia.
    + rewrite seed_noop by exact Hge. lia.
Qed.

Lemma hook_then_list_total_witness :
  exists body total,
    list_movies (H := binary_engine) [] (ensure_db_ready (fun i => i) two_rows_db)
    = Ok (PDict body, 200)
    /\ body !! "total" = Some (PInt total)
    /\ 30 <= total.
Proof.
  destruct (hook_then_list_total (H := binary_engine) (fun i => i) []
              two_rows_db 1 10 eq_refl ltac:(vm_compute; discriminate) I I)
    as (body & total & Hr & Ht & Hge & _).
  exists body, total. auto.
Defined.

(** ** What a create request can do *)

(** X10: a create request that returns has one of two outcomes: status 201,
    for a payload that passed the validation, with one record more in the
    table; or status 400, for a payload with errors, with the table as it
    was.  No other status is answered and nothing is written without the
    201. *)
Theorem create_outcomes `{Engine} (now : Z) (json : option PyVal)
    (db db' : Db) (resp : Response) :
  create_movie now json db = Ok (resp, db') ->
  (snd resp = 201
   /\ validate_movie_payload (get_json_or_empty json) false = Ok ∅
   /\ db_count db' = db_count db + 1
   /\ exists m, rows db' = (rows db ++ [m])%list
                /\ resp = (PDict (Movie.to_dict m), 201))
  \/ (snd resp = 400
      /\ db' = db
      /\ exists errors,
           errors <> ∅
           /\ validate_movie_payload (get_json_or_empty json) false = Ok errors
           /\ resp = json_error "Validation failed" 400 (Some errors)).
Proof.
  intros Hc.
  destruct (validate_movie_payload (get_json_or_empty json) false)
    as [errors|] eqn:Hval;
    [|unfold create_movie in Hc; rewrite Hval in Hc; discriminate].
  destruct (decide (errors = ∅)) as [->|Hne].
  - left.
    destruct (create_movie_ok now json db Hval)
      as (d & st & sg & si & vr & m & _ & _ & _ & _ & _ & _ & _ & Hresp & _).
    rewrite Hresp in Hc. injection Hc as <- <-.
    split; [reflexivity|]. split; [reflexivity|]. split.
    + unfold db_count. cbn [rows]. rewrite length_app. cbn [length]. lia.
    + exists m. split; reflexivity.
  - right. unfold create_movie in Hc. rewrite Hval in Hc. cbn [bind] in Hc.
    rewrite bool_decide_eq_false_2 in Hc by exact Hne.
    injection Hc as <- <-. split; [reflexivity|]. split; [reflexivity|].
    exists errors. auto.
Qed.

Lemma create_outcomes_witness :
  exists resp db',
    create_movie (H := binary_engine) 500 (Some (PDict rating_15_payload))
      two_rows_db = Ok (resp, db')
    /\ snd resp = 400 /\ db' = two_rows_db.
Proof.
  destruct (create_movie (H := binary_engine) 500
              (Some (PDict rating_15_payload)) two_rows_db)
    as [[resp db']|e] eqn:Hc; [|vm_compute in Hc; discriminate].
  exists resp, db'. split; [reflexivity|].
  destruct (create_outcomes (H := binary_engine) 500 _ _ _ _ Hc)
    as [(_ & Hval & _)|(Hs & Hdb & _)]; [|auto].
  vm_compute in Hval. discriminate Hval.
Defined.

(** ** The database URL *)

(** X23: the service starts only with a usable [DATABASE_URL]: it refuses
    to start exactly when the variable is unset, empty or nothing but
    white space; otherwise the URL it configures is the value without
    its surrounding white space, which is not empty. *)
Theorem database_url_required (env : option string) :
  (database_url env = None <-> blank_arg env)
  /\ (forall url,
        database_url env = Some url ->
        url <> "" /\ PyStr.strip url = url
        /\ exists s, env = Some s /\ url = PyStr.strip s).
Proof.
  unfold database_url, blank_arg, str_or. split.
  - destruct env as [s|]; [|split; auto].
    destruct (String.eqb_spec s "") as [->|Hs].
    + cbn. split; auto.
    + destruct (String.eqb_spec (PyStr.strip s) ""); split;
        congruence || auto.
  - intros url. destruct env as [s|]; [|discriminate].
    destruct (String.eqb_spec s "") as [->|Hs]; [discriminate|].
    destruct (String.eqb_spec (PyStr.strip s) "") as [|Hne]; [discriminate|].
    intros [= <-]. split; [exact Hne|]. split; [apply strip_idem|]. eauto.
Qed.

Lemma database_url_required_witness :
  database_url (Some "  ") = None
  /\ database_url (Some " mysql+pymysql://u:p@h:3306/db ")
     = Some "mysql+pymysql://u:p@h:3306/db".
Proof.
  split.
  - apply (database_url_required (Some "  ")). reflexivity.
  - destruct (database_url (Some " mysql+pymysql://u:p@h:3306/db ")) as [url|]
      eqn:Hu; [|vm_compute in Hu; discriminate].
    destruct (database_url_required
                (Some " mysql+pymysql://u:p@h:3306/db ")) as [_ Hsome].
    destruct (Hsome url Hu) as (_ & _ & s & [= <-] & ->). reflexivity.
Defined.
